(** * ec2_enumerate_tag: pattern parsing, membership test and name allocation

    A shallow embedding of [src/ec2_enumerate_tag.py] (Python 2) and the
    properties of its three pure functions [parse_pattern], [check_pattern]
    and [fresh_names], together with [range_pattern].

    Python 2 [str] values are byte strings: they are modelled by [string],
    whose characters are 8-bit [ascii] codes.  Python integers are unbounded:
    they are modelled by [Z].  Exceptions are modelled by the error monad
    [result]. *)

From Stdlib Require Import ZArith List Bool Ascii String Lia.
Import ListNotations.
Local Open Scope Z_scope.
Local Open Scope string_scope.

(* ================================================================== *)
(** * Exceptions *)

(** The exceptions the modelled code can raise.  [PatternError] is the class
    defined by the module (lines 53-57); the others are Python built-ins.
    [ReError] stands for [re.error]; the model also raises it for regular
    expression syntax outside the fragment of [Re.compile]. *)
Inductive exn : Type :=
| PatternError (msg : string)
| AttributeError
| KeyError (key : string)
| ValueError
| ReError.

Inductive result (A : Type) : Type :=
| Ok (a : A)
| Raise (e : exn).

Arguments Ok {A} a.
Arguments Raise {A} e.

Definition bind {A B : Type} (m : result A) (k : A -> result B) : result B :=
  match m with
  | Ok a => k a
  | Raise e => Raise e
  end.

Notation "x <- m ;; k" := (bind m (fun x => k))
  (at level 61, m at next level, right associativity).

(* ================================================================== *)
(** * The fragment of Python's [re] module used by the source *)

Module Re.

(** A character set is a list of inclusive ranges of character codes. *)
Definition charset : Type := list (ascii * ascii).

Definition in_range (c : ascii) (r : ascii * ascii) : bool :=
  (N_of_ascii (fst r) <=? N_of_ascii c)%N && (N_of_ascii c <=? N_of_ascii (snd r))%N.

Definition in_set (cs : charset) (c : ascii) : bool := existsb (in_range c) cs.

(** [\d] on byte strings without flags: the ten ASCII digits. *)
Definition digit : charset := [("0"%char, "9"%char)].

(** A compiled pattern is a sequence of items.  Only one-character atoms
    are quantified in the source, and groups are not nested. *)
Inductive item : Type :=
| One (cs : charset)            (* one character of the set *)
| Many (cs : charset)           (* greedy [X*] *)
| Many1 (cs : charset)          (* greedy [X+] *)
| Open (name : option string)   (* [(] or [(?P<name>] *)
| Close.                        (* [)] *)

Definition is_meta (c : ascii) : bool :=
  existsb (Ascii.eqb c) ["."; "^"; "$"; "*"; "+"; "?"; "{"; "|"]%char.

Definition is_alnum (c : ascii) : bool :=
  in_set [("a", "z"); ("A", "Z"); ("0", "9")]%char c.

(** Body of a bracket expression, after the opening bracket. *)
Fixpoint parse_set (s : string) : option (charset * string) :=
  match s with
  | "" => None
  | String a s1 =>
      if (a =? "]")%char then Some ([], s1)
      else if (a =? "\")%char || (a =? "^")%char || (a =? "[")%char then None
      else
        let single :=
          match parse_set s1 with
          | Some (cs, rest) => Some ((a, a) :: cs, rest)
          | None => None
          end in
        match s1 with
        | String h (String b s2) =>
            if (h =? "-")%char && negb (b =? "]")%char then
              if (b =? "\")%char || (b =? "[")%char
                 || negb (N_of_ascii a <=? N_of_ascii b)%N then None
              else
                match parse_set s2 with
                | Some (cs, rest) => Some ((a, b) :: cs, rest)
                | None => None
                end
            else single
        | _ => single
        end
  end.

(** Group name of [(?P<name>], after the [<]. *)
Fixpoint parse_name (s : string) : option (string * string) :=
  match s with
  | "" => None
  | String c s1 =>
      if (c =? ">")%char then Some ("", s1)
      else if is_alnum c || (c =? "_")%char then
        match parse_name s1 with
        | Some (nm, rest) => Some (String c nm, rest)
        | None => None
        end
      else None
  end.

(** A one-character atom followed by an optional [*] or [+]. *)
Definition quantified (cs : charset) (s : string) : option (item * string) :=
  match s with
  | String q s1 =>
      if (q =? "*")%char then Some (Many cs, s1)
      else if (q =? "+")%char then Some (Many1 cs, s1)
      else if (q =? "?")%char || (q =? "{")%char then None
      else Some (One cs, s)
  | "" => Some (One cs, s)
  end.

(** One item from the front of the pattern text. *)
Definition parse_item (s : string) : option (item * string) :=
  match s with
  | "" => None
  | String c s1 =>
      if (c =? "(")%char then
        match s1 with
        | String "?" (String "P" (String "<" s2)) =>
            match parse_name s2 with
            | Some (String n nm, rest) => Some (Open (Some (String n nm)), rest)
            | _ => None
            end
        | String "?" _ => None
        | _ => Some (Open None, s1)
        end
      else if (c =? ")")%char then Some (Close, s1)
      else if (c =? "[")%char then
        match parse_set s1 with
        | Some (r :: cs, rest) => quantified (r :: cs) rest
        | _ => None
        end
      else if (c =? "\")%char then
        match s1 with
        | String e s2 =>
            if (e =? "d")%char then quantified digit s2
            else if is_alnum e then None
            else quantified [(e, e)] s2
        | "" => None
        end
      else if is_meta c then None
      else quantified [(c, c)] s1
  end.

Fixpoint parse_items (fuel : nat) (s : string) : option (list item) :=
  match s with
  | "" => Some []
  | _ =>
      match fuel with
      | O => None
      | S fuel' =>
          match parse_item s with
          | Some (it, rest) =>
              match parse_items fuel' rest with
              | Some its => Some (it :: its)
              | None => None
              end
          | None => None
          end
      end
  end.

(** Groups must be closed and, in this fragment, not nested. *)
Fixpoint balanced (inside : bool) (r : list item) : bool :=
  match r with
  | [] => negb inside
  | Open _ :: r' => negb inside && balanced true r'
  | Close :: r' => inside && balanced false r'
  | _ :: r' => balanced inside r'
  end.

(** [re.compile]: every item consumes at least one character of the
    pattern text, so its length is enough fuel. *)
Definition compile (pattern : string) : option (list item) :=
  match parse_items (String.length pattern) pattern with
  | Some r => if balanced false r then Some r else None
  | None => None
  end.

(** A captured group: its name, if any, and the text it matched. *)
Definition capture : Type := (option string * string)%type.

Definition push (cur : option capture) (c : ascii) : option capture :=
  match cur with
  | Some (nm, t) => Some (nm, t ++ String c "")
  | None => None
  end.

(** Greedy repetition with backtracking: take one more character when
    possible, and fall back to the continuation [k] when the rest of the
    pattern does not match after it. *)
Fixpoint greedy {R : Type} (k : string -> option capture -> option R)
         (cs : charset) (s : string) (cur : option capture) : option R :=
  match s with
  | String c s' =>
      if in_set cs c then
        match greedy k cs s' (push cur c) with
        | Some m => Some m
        | None => k s cur
        end
      else k s cur
  | "" => k s cur
  end.

(** Matching from the start of [s]; the pattern need not reach the end
    of [s] ([re.match] anchors only the start).  [cur] is the group being
    captured and [done] the groups already closed, last first. *)
Fixpoint run (r : list item) (s : string) (cur : option capture)
         (done : list capture) : option (list capture) :=
  match r with
  | [] => Some (rev done)
  | Open nm :: r' => run r' s (Some (nm, "")) done
  | Close :: r' =>
      match cur with
      | Some g => run r' s None (g :: done)
      | None => None
      end
  | One cs :: r' =>
      match s with
      | String c s' => if in_set cs c then run r' s' (push cur c) done else None
      | "" => None
      end
  | Many cs :: r' => greedy (fun s1 cur1 => run r' s1 cur1 done) cs s cur
  | Many1 cs :: r' =>
      match s with
      | String c s' =>
          if in_set cs c
          then greedy (fun s1 cur1 => run r' s1 cur1 done) cs s' (push cur c)
          else None
      | "" => None
      end
  end.

(** [re.match(pattern, s)]: [Ok None] is Python's [None], [Ok (Some m)] a
    match object holding the groups in order. *)
Definition rmatch (pattern s : string) : result (option (list capture)) :=
  match compile pattern with
  | Some r => Ok (run r s None [])
  | None => Raise ReError
  end.

(** [m.group(i)] for [i >= 1]. *)
Definition group (m : list capture) (i : nat) : result string :=
  match nth_error m (pred i) with
  | Some (_, t) => Ok t
  | None => Raise ReError
  end.

(** [m.groupdict()]: the named groups, as an association list. *)
Fixpoint groupdict (m : list capture) : list (string * string) :=
  match m with
  | [] => []
  | (Some nm, t) :: m' => (nm, t) :: groupdict m'
  | (None, _) :: m' => groupdict m'
  end.

End Re.

(* ================================================================== *)
(** * The Python built-ins used by the source *)

Module Py.

Definition is_digit (c : ascii) : bool := Re.in_set Re.digit c.

Fixpoint all_digits (s : string) : bool :=
  match s with
  | "" => true
  | String c s' => is_digit c && all_digits s'
  end.

Definition digit_value (c : ascii) : Z := Z.of_N (N_of_ascii c) - 48.

Fixpoint digits_value (acc : Z) (s : string) : Z :=
  match s with
  | "" => acc
  | String c s' => digits_value (10 * acc + digit_value c) s'
  end.

(** [int(s)].  The source applies it only to text captured by [\d]
    groups; on such text (one or more digits) it is the base-10 value.
    Other spellings Python accepts (sign, surrounding blanks) never reach
    it and are reported as [ValueError] by the model. *)
Definition int (s : string) : result Z :=
  match s with
  | "" => Raise ValueError
  | _ => if all_digits s then Ok (digits_value 0 s) else Raise ValueError
  end.

Definition digit_char (d : Z) : ascii := ascii_of_N (Z.to_N (48 + d)).

(** Decimal digits of [n >= 0], most significant first.  [n < 2 ^ fuel]
    is enough fuel. *)
Fixpoint decimal (fuel : nat) (n : Z) : string :=
  match fuel with
  | O => ""
  | S fuel' =>
      (if (n <? 10)%Z then "" else decimal fuel' (n / 10))
        ++ String (digit_char (n mod 10)) ""
  end.

(** [str(z)] for an integer. *)
Definition str (z : Z) : string :=
  if (z <? 0)%Z then String "-" (decimal (S (Z.to_nat (Z.log2 (- z)))) (- z))
  else decimal (S (Z.to_nat (Z.log2 z))) z.

Definition len {A : Type} (xs : list A) : Z := Z.of_nat (List.length xs).

(** [max(xs)] over byte strings: the first greatest element in
    lexicographic byte order. *)
Definition max (xs : list string) : result string :=
  match xs with
  | [] => Raise ValueError
  | x :: xs' => Ok (fold_left (fun m y => if (m <? y)%string then y else m) xs' x)
  end.

(** [range(a, b)]. *)
Definition range (a b : Z) : list Z :=
  map (fun k => a + Z.of_nat k) (seq 0 (Z.to_nat (b - a))).

(** A dict with string keys and values, and [d[key]]. *)
Definition dict : Type := list (string * string).

Fixpoint getitem (d : dict) (key : string) : result string :=
  match d with
  | [] => Raise (KeyError key)
  | (k, v) :: d' => if (k =? key)%string then Ok v else getitem d' key
  end.

End Py.

(* ================================================================== *)
(** * The source functions *)

(** Lines 59-63.  The loop appends [\d] once per character of
    [range_str]. *)
Fixpoint range_pattern_loop (range_str pattern : string) : string :=
  match range_str with
  | "" => pattern
  | String _ rest => range_pattern_loop rest (pattern ++ "\d")
  end.

Definition range_pattern (range_str : string) : string :=
  range_pattern_loop range_str "(" ++ ")".

(** The pattern text of line 66, character for character. *)
Definition PATTERN_RE : string :=
  "(?P<hostname>[a-zA-Z0-9_-]*)\[(?P<range_start>\d+):(?P<range_end>\d+)\]".

(** Lines 65-70. *)
Definition parse_pattern (raw_pattern : string) : result Py.dict :=
  m <- Re.rmatch PATTERN_RE raw_pattern ;;
  match m with
  | Some m => Ok (Re.groupdict m)
  | None => Raise (PatternError ("Invalid pattern: " ++ raw_pattern))
  end.

(** Lines 72-84.  [taken] is received and never read. *)
Definition check_pattern {A : Type} (pattern tag : string) (taken : A)
  : result bool :=
  pattern_dict <- parse_pattern pattern ;;
  hostname <- Py.getitem pattern_dict "hostname" ;;
  range_start_str <- Py.getitem pattern_dict "range_start" ;;
  range_start <- Py.int range_start_str ;;
  range_end_str <- Py.getitem pattern_dict "range_end" ;;
  range_end <- Py.int range_end_str ;;
  m <- Re.rmatch (hostname ++ range_pattern range_start_str) tag ;;
  match m with
  | Some m =>
      g <- Re.group m 1 ;;
      current_id <- Py.int g ;;
      Ok ((range_start <=? current_id)%Z && (current_id <=? range_end)%Z)
  | None => Ok false
  end.

(** The value of [current_id] at line 81 when the tag matched, [None] when
    it did not: the id [check_pattern] then compares with the bounds. *)
Definition matched_id (pattern tag : string) : result (option Z) :=
  pattern_dict <- parse_pattern pattern ;;
  hostname <- Py.getitem pattern_dict "hostname" ;;
  range_start_str <- Py.getitem pattern_dict "range_start" ;;
  range_start <- Py.int range_start_str ;;
  range_end_str <- Py.getitem pattern_dict "range_end" ;;
  range_end <- Py.int range_end_str ;;
  m <- Re.rmatch (hostname ++ range_pattern range_start_str) tag ;;
  match m with
  | Some m =>
      g <- Re.group m 1 ;;
      current_id <- Py.int g ;;
      Ok (Some current_id)
  | None => Ok None
  end.

(** Lines 103-104: [while len(suffix) < width: suffix = "0" + suffix].  The
    loop body runs at most [width] times. *)
Fixpoint pad_loop (fuel width : nat) (suffix : string) : string :=
  match fuel with
  | O => suffix
  | S fuel' =>
      if (String.length suffix <? width)%nat
      then pad_loop fuel' width (String "0" suffix)
      else suffix
  end.

(** Lines 102-106: the name appended for loop index [i]. *)
Definition make_name (hostname range_start_str : string) (current_id i : Z)
  : string :=
  let suffix := Py.str (current_id + i) in
  let width := String.length range_start_str in
  let suffix := pad_loop width width suffix in
  hostname ++ suffix.

(** Lines 86-108. *)
Definition fresh_names (pattern : string) (taken : list string)
           (no_requested : Z) : result (list string) :=
  pattern_dict <- parse_pattern pattern ;;
  hostname <- Py.getitem pattern_dict "hostname" ;;
  range_start_str <- Py.getitem pattern_dict "range_start" ;;
  range_start <- Py.int range_start_str ;;
  range_end_str <- Py.getitem pattern_dict "range_end" ;;
  range_end <- Py.int range_end_str ;;
  current_id <-
    (if (0 <? Py.len taken)%Z then
       max_taken <- Py.max taken ;;
       m <- Re.rmatch (hostname ++ range_pattern range_start_str) max_taken ;;
       match m with
       | Some m =>
           g <- Re.group m 1 ;;
           max_id <- Py.int g ;;
           Ok (max_id + 1)
       | None => Raise AttributeError
       end
     else Ok range_start) ;;
  Ok (fold_left
        (fun names i =>
           (names ++ [make_name hostname range_start_str current_id i])%list)
        (Py.range 0 no_requested) []).

(* ================================================================== *)
(** * Notions used to state the properties *)

(** The dict [parse_pattern] returns for prefix [hostname] and bounds
    written [range_start] and [range_end]. *)
Definition descriptor (hostname range_start range_end : string) : Py.dict :=
  [("hostname", hostname); ("range_start", range_start);
   ("range_end", range_end)].

(** Characters allowed in the prefix: letters, digits, underscore, hyphen. *)
Definition host_set : Re.charset :=
  [("a", "z"); ("A", "Z"); ("0", "9"); ("_", "_"); ("-", "-")]%char.

Fixpoint all_in (cs : Re.charset) (s : string) : bool :=
  match s with
  | "" => true
  | String c s' => Re.in_set cs c && all_in cs s'
  end.

(** An unsigned decimal integer as written: one or more digits. *)
Definition is_number (s : string) : bool :=
  negb (s =? "") && Py.all_digits s.

(** Base-10 value of a digit string. *)
Definition value (s : string) : Z := Py.digits_value 0 s.

(** [s] begins with [hostname], then [range_start], [range_end] in
    brackets separated by a colon, and goes on with [rest]. *)
Definition pattern_shape (s hostname range_start range_end rest : string)
  : Prop :=
  s = hostname ++ "[" ++ range_start ++ ":" ++ range_end ++ "]" ++ rest
  /\ all_in host_set hostname = true
  /\ is_number range_start = true
  /\ is_number range_end = true.

(** The whole of [s] is a prefix followed by a bracketed range. *)
Definition whole_pattern (s : string) : Prop :=
  exists hostname range_start range_end,
    pattern_shape s hostname range_start range_end "".

Fixpoint zeros (n : nat) : string :=
  match n with
  | O => ""
  | S n' => String "0" (zeros n')
  end.

(** [s] left-padded with the character 0 to length [width]. *)
Definition lpad0 (width : nat) (s : string) : string :=
  zeros (width - String.length s) ++ s.

(** [tag] begins with [hostname] followed by the [width] digits [ds]. *)
Definition tag_shape (hostname : string) (width : nat) (tag ds rest : string)
  : Prop :=
  tag = hostname ++ ds ++ rest
  /\ String.length ds = width
  /\ Py.all_digits ds = true.

(** The tag [t] begins with the prefix and [w] digits of value [k]. *)
Definition has_id (h : string) (w : nat) (t : string) (k : Z) : Prop :=
  exists ds rest, tag_shape h w t ds rest /\ value ds = k.

(** What follows the prefix in a name, and the number written there. *)
Definition suffix_of (hostname name : string) : string :=
  substring (String.length hostname)
    (String.length name - String.length hostname) name.

Definition name_id (hostname name : string) : result Z :=
  Py.int (suffix_of hostname name).

(** A conforming name: the prefix, then exactly [width] digits whose value
    lies between [lower] and [upper]. *)
Definition conforms (hostname : string) (width : nat) (lower upper : Z)
           (name : string) : bool :=
  let ds := suffix_of hostname name in
  (name =? hostname ++ ds) && (String.length ds =? width)%nat
  && Py.all_digits ds && (lower <=? value ds)%Z && (value ds <=? upper)%Z.

(** Greatest element of a list of integers ([0] for the empty list). *)
Definition max_list (ks : list Z) : Z :=
  match ks with
  | [] => 0
  | k :: ks' => fold_left Z.max ks' k
  end.

(** The ids in use: the numbers written in the taken names. *)
Definition taken_ids (hostname : string) (taken : list string) : list Z :=
  map (fun t => value (suffix_of hostname t)) taken.

(** The first id of an allocation as the specification words it. *)
Definition start_id (hostname : string) (lower : Z) (taken : list string)
  : Z :=
  match taken with
  | [] => lower
  | _ => max_list (taken_ids hostname taken) + 1
  end.

(** [rest] does not go on with a character of the set. *)
Definition stops (cs : Re.charset) (rest : string) : Prop :=
  match rest with
  | "" => True
  | String d _ => Re.in_set cs d = false
  end.

(** Appending a whole text to the group being captured. *)
Definition push_all (cur : option Re.capture) (t : string)
  : option Re.capture :=
  match cur with
  | Some (nm, u) => Some (nm, u ++ t)
  | None => None
  end.

Definition lit (c : ascii) : Re.item := Re.One [(c, c)].

Fixpoint lits (s : string) : list Re.item :=
  match s with
  | "" => []
  | String c s' => lit c :: lits s'
  end.

(** [n] copies of the two characters backslash, d. *)
Fixpoint slash_d (n : nat) : string :=
  match n with
  | O => ""
  | S n' => "\d" ++ slash_d n'
  end.

(** The compiled form of [PATTERN_RE]. *)
Definition pattern_items : list Re.item :=
  [Re.Open (Some "hostname"); Re.Many host_set; Re.Close; lit "[";
   Re.Open (Some "range_start"); Re.Many1 Re.digit; Re.Close; lit ":";
   Re.Open (Some "range_end"); Re.Many1 Re.digit; Re.Close; lit "]"].

(** The compiled form of [hostname + range_pattern(range_start_str)]. *)
Definition tag_items (hostname : string) (width : nat) : list Re.item :=
  (lits hostname ++ Re.Open None :: repeat (Re.One Re.digit) width
     ++ [Re.Close])%list.

(** A name that is the prefix followed by exactly [width] digits, whatever
    their value. *)
Definition plain_name (hostname : string) (width : nat) (name : string)
  : bool :=
  let ds := suffix_of hostname name in
  (name =? hostname ++ ds) && (String.length ds =? width)%nat
  && Py.all_digits ds.

(** The first [width] digits after the prefix and their value: what the
    pattern built for tags captures. *)
Definition leading_id (hostname : string) (width : nat) (name : string) : Z :=
  value (substring (String.length hostname) width name).

(* ================================================================== *)
(** * The classification loop of [main] *)

(** [key in d]. *)
Definition contains (d : Py.dict) (key : string) : bool :=
  existsb (fun kv => (fst kv =? key)%string) d.

(** The dicts [main] collects, [{"instance": instance, "val": val}], where
    [val] is the tag's value or [None]. *)
Record item (Instance : Type) : Type := Item {
  item_instance : Instance;
  item_val : option string
}.

Arguments Item {Instance} _ _.
Arguments item_instance {Instance} _.
Arguments item_val {Instance} _.

(** Lines 158-169 of [main], from given lists [valid_instances] and
    [invalid_instances].  Of an instance the loop reads only its [tags]. *)
Fixpoint classify_loop {Instance : Type} (tags : Instance -> Py.dict)
         (pattern tag : string) (instances : list Instance)
         (valid_instances invalid_instances : list (item Instance))
  : result (list (item Instance) * list (item Instance)) :=
  match instances with
  | [] => Ok (valid_instances, invalid_instances)
  | instance :: rest =>
      if contains (tags instance) tag then
        current_val <- Py.getitem (tags instance) tag ;;
        ok <- check_pattern pattern current_val valid_instances ;;
        if ok : bool then
          classify_loop tags pattern tag rest
            (valid_instances ++ [Item instance (Some current_val)])%list
            invalid_instances
        else
          classify_loop tags pattern tag rest valid_instances
            (invalid_instances ++ [Item instance (Some current_val)])%list
      else
        classify_loop tags pattern tag rest valid_instances
          (invalid_instances ++ [Item instance None])%list
  end.

(** Lines 155-169 of [main]: both lists start empty. *)
Definition classify {Instance : Type} (tags : Instance -> Py.dict)
           (pattern tag : string) (instances : list Instance)
  : result (list (item Instance) * list (item Instance)) :=
  classify_loop tags pattern tag instances [] [].

(** The instance carries the tag with a value [check_pattern] accepts. *)
Definition accepted {Instance : Type} (tags : Instance -> Py.dict)
           (pattern tag : string) (instance : Instance) : bool :=
  match Py.getitem (tags instance) tag with
  | Ok v =>
      match check_pattern pattern v (@nil string) with
      | Ok r => r
      | Raise _ => false
      end
  | Raise _ => false
  end.

(** The value of the tag on the instance, [None] when it has none
    ([dict.get]). *)
Definition tag_value {Instance : Type} (tags : Instance -> Py.dict)
           (tag : string) (instance : Instance) : option string :=
  match Py.getitem (tags instance) tag with
  | Ok v => Some v
  | Raise _ => None
  end.

(* ================================================================== *)
(** * [format_return] *)

(** The dicts [format_return] builds, with keys [id], [public_dns],
    [public_ip] and [value].  The three attributes of an instance are
    copied as they are, whatever their type [Attr]. *)
Record entry (Attr : Type) : Type := Entry {
  entry_id : Attr;
  entry_public_dns : Attr;
  entry_public_ip : Attr;
  entry_value : option string
}.

Arguments Entry {Attr} _ _ _ _.
Arguments entry_id {Attr} _.
Arguments entry_public_dns {Attr} _.
Arguments entry_public_ip {Attr} _.
Arguments entry_value {Attr} _.

(** Lines 110-119.  [inst_id], [public_dns_name] and [ip_address] read the
    attributes [instance.id], [instance.public_dns_name] and
    [instance.ip_address]. *)
Definition format_return {Instance Attr : Type}
           (inst_id public_dns_name ip_address : Instance -> Attr)
           (instances : list (item Instance)) : list (entry Attr) :=
  fold_left
    (fun ret item =>
       let instance := item_instance item in
       (ret ++ [Entry (inst_id instance) (public_dns_name instance)
                      (ip_address instance) (item_val item)])%list)
    instances [].

(* ================================================================== *)
(** * Strings and characters *)

Lemma append_nil_r (s : string) : s ++ "" = s.
Proof. induction s as [|c s IH]; simpl; [reflexivity | now rewrite IH]. Qed.

Lemma append_assoc (s t u : string) : (s ++ t) ++ u = s ++ (t ++ u).
Proof. induction s as [|c s IH]; simpl; [reflexivity | now rewrite IH]. Qed.

Lemma length_append (s t : string) :
  String.length (s ++ t) = (String.length s + String.length t)%nat.
Proof. induction s as [|c s IH]; simpl; [reflexivity | now rewrite IH]. Qed.

Lemma append_inv_head (s t u : string) : s ++ t = s ++ u -> t = u.
Proof.
  induction s as [|c s IH]; simpl; intros H; [exact H|].
  injection H as H. auto.
Qed.

Lemma append_same_length (s1 s2 t1 t2 : string) :
  s1 ++ t1 = s2 ++ t2 -> String.length s1 = String.length s2 ->
  s1 = s2 /\ t1 = t2.
Proof.
  revert s2. induction s1 as [|c s1 IH]; intros [|d s2]; simpl;
    intros H L; try discriminate.
  - auto.
  - injection H as -> H. injection L as L.
    destruct (IH _ H L) as [-> ->]. auto.
Qed.

Lemma substring_append (s t : string) :
  substring (String.length s) (String.length t) (s ++ t) = t.
Proof.
  induction s as [|c s IH]; simpl.
  - induction t as [|d t IHt]; simpl; [reflexivity|].
    now rewrite IHt.
  - exact IH.
Qed.

Lemma suffix_of_append (h t : string) : suffix_of h (h ++ t) = t.
Proof.
  unfold suffix_of. rewrite length_append.
  replace (String.length h + String.length t - String.length h)%nat
    with (String.length t) by lia.
  apply substring_append.
Qed.

Lemma all_in_append (cs : Re.charset) (s t : string) :
  all_in cs (s ++ t) = all_in cs s && all_in cs t.
Proof.
  induction s as [|c s IH]; simpl; [reflexivity|].
  now rewrite IH, andb_assoc.
Qed.

Lemma all_digits_all_in (s : string) : Py.all_digits s = all_in Re.digit s.
Proof. induction s as [|c s IH]; simpl; [reflexivity | now rewrite IH]. Qed.

Lemma all_digits_append (s t : string) :
  Py.all_digits (s ++ t) = Py.all_digits s && Py.all_digits t.
Proof. rewrite !all_digits_all_in. apply all_in_append. Qed.

Lemma N_of_ascii_inj (a b : ascii) : N_of_ascii a = N_of_ascii b -> a = b.
Proof.
  intros H. rewrite <- (ascii_N_embedding a), <- (ascii_N_embedding b).
  now rewrite H.
Qed.

Lemma in_set_single (c d : ascii) : Re.in_set [(c, c)] d = true <-> c = d.
Proof.
  unfold Re.in_set, Re.in_range; simpl. rewrite orb_false_r, andb_true_iff.
  rewrite !N.leb_le. split.
  - intros [H1 H2]. apply N_of_ascii_inj. lia.
  - intros ->. lia.
Qed.

Lemma in_set_single_refl (c : ascii) : Re.in_set [(c, c)] c = true.
Proof. now apply in_set_single. Qed.

Lemma is_digit_code (c : ascii) :
  Py.is_digit c = true <-> (48 <= N_of_ascii c <= 57)%N.
Proof.
  unfold Py.is_digit, Re.in_set, Re.in_range, Re.digit; simpl.
  rewrite orb_false_r, andb_true_iff, !N.leb_le. reflexivity.
Qed.

Lemma digit_value_range (c : ascii) :
  Py.is_digit c = true -> 0 <= Py.digit_value c <= 9.
Proof. rewrite is_digit_code. unfold Py.digit_value. lia. Qed.

Lemma digit_char_value (c : ascii) :
  Py.is_digit c = true -> Py.digit_char (Py.digit_value c) = c.
Proof.
  rewrite is_digit_code. intros H. unfold Py.digit_char, Py.digit_value.
  replace (Z.to_N (48 + (Z.of_N (N_of_ascii c) - 48))) with (N_of_ascii c)
    by lia.
  apply ascii_N_embedding.
Qed.

Lemma digit_value_char (d : Z) :
  0 <= d <= 9 ->
  Py.is_digit (Py.digit_char d) = true /\ Py.digit_value (Py.digit_char d) = d.
Proof.
  intros H. unfold Py.digit_char, Py.digit_value.
  rewrite is_digit_code, N_ascii_embedding by lia. lia.
Qed.

Lemma not_in_set_code (cs : Re.charset) (c d : ascii) :
  Re.in_set cs c = true -> Re.in_set cs d = false -> Re.in_set [(d, d)] c = false.
Proof.
  intros Hc Hd. destruct (Re.in_set [(d, d)] c) eqn:E; [|reflexivity].
  apply in_set_single in E. subst. congruence.
Qed.

(* ================================================================== *)
(** * The matcher *)

Lemma push_all_nil (cur : option Re.capture) : push_all cur "" = cur.
Proof. destruct cur as [[nm u]|]; simpl; [now rewrite append_nil_r | reflexivity]. Qed.

Lemma push_all_push (cur : option Re.capture) (c : ascii) (t : string) :
  push_all (Re.push cur c) t = push_all cur (String c t).
Proof.
  destruct cur as [[nm u]|]; simpl; [|reflexivity].
  now rewrite append_assoc.
Qed.

(** A successful greedy repetition took some run of characters of the set
    and the continuation matched what remained. *)
Lemma greedy_inv {R : Type} (k : string -> option Re.capture -> option R)
      (cs : Re.charset) (s : string) :
  forall cur m,
    Re.greedy k cs s cur = Some m ->
    exists t rest,
      s = t ++ rest /\ all_in cs t = true /\ k rest (push_all cur t) = Some m.
Proof.
  induction s as [|c s IH]; intros cur m H; simpl in H.
  - exists "", "". rewrite push_all_nil. auto.
  - destruct (Re.in_set cs c) eqn:Hc.
    + destruct (Re.greedy k cs s (Re.push cur c)) as [m'|] eqn:G.
      * injection H as <-. destruct (IH _ _ G) as (t & rest & -> & Ht & Hk).
        exists (String c t), rest. simpl. rewrite Hc, Ht.
        rewrite push_all_push in Hk. auto.
      * exists "", (String c s). rewrite push_all_nil. auto.
    + exists "", (String c s). rewrite push_all_nil. auto.
Qed.

(** When the continuation cannot start with a character of the set, the
    repetition takes the whole run and gives nothing back. *)
Lemma greedy_maximal {R : Type} (k : string -> option Re.capture -> option R)
      (cs : Re.charset) (t rest : string) :
  (forall c s' cur', Re.in_set cs c = true -> k (String c s') cur' = None) ->
  stops cs rest ->
  all_in cs t = true ->
  forall cur, Re.greedy k cs (t ++ rest) cur = k rest (push_all cur t).
Proof.
  intros Hk Hrest. induction t as [|c t IH]; simpl; intros Ht cur.
  - rewrite push_all_nil. destruct rest as [|d rest]; simpl; [reflexivity|].
    simpl in Hrest. now rewrite Hrest.
  - apply andb_true_iff in Ht as [Hc Ht]. rewrite Hc, IH by exact Ht.
    rewrite push_all_push.
    destruct (k rest (push_all cur (String c t))) eqn:E; [reflexivity|].
    apply Hk, Hc.
Qed.

Lemma compile_pattern_re : Re.compile PATTERN_RE = Some pattern_items.
Proof. reflexivity. Qed.

Lemma run_pattern_inv (s : string) (m : list Re.capture) :
  Re.run pattern_items s None [] = Some m ->
  exists h a b rest,
    pattern_shape s h a b rest
    /\ m = [(Some "hostname", h); (Some "range_start", a);
            (Some "range_end", b)].
Proof.
  unfold pattern_items. cbn [Re.run]. intros H.
  apply greedy_inv in H as (h & s1 & -> & Hh & H). cbn [push_all Re.run] in H.
  destruct s1 as [|c1 s1]; [discriminate|]. unfold lit in H. cbn [Re.run] in H.
  destruct (Re.in_set [("["%char, "["%char)] c1) eqn:E1; [|discriminate].
  apply in_set_single in E1 as <-.
  destruct s1 as [|d1 s1]; [discriminate|].
  destruct (Re.in_set Re.digit d1) eqn:D1; [|discriminate].
  apply greedy_inv in H as (a & s2 & -> & Ha & H).
  rewrite push_all_push in H. cbn [push_all Re.run] in H.
  destruct s2 as [|c2 s2]; [discriminate|].
  destruct (Re.in_set [(":"%char, ":"%char)] c2) eqn:E2; [|discriminate].
  apply in_set_single in E2 as <-.
  destruct s2 as [|d2 s2]; [discriminate|].
  destruct (Re.in_set Re.digit d2) eqn:D2; [|discriminate].
  apply greedy_inv in H as (b & s3 & -> & Hb & H).
  rewrite push_all_push in H. cbn [push_all Re.run] in H.
  destruct s3 as [|c3 s3]; [discriminate|].
  destruct (Re.in_set [("]"%char, "]"%char)] c3) eqn:E3; [|discriminate].
  apply in_set_single in E3 as <-.
  cbn [Re.run Re.push rev app] in H. injection H as <-.
  exists h, (String d1 a), (String d2 b), s3. split; [|reflexivity].
  unfold pattern_shape, is_number. rewrite !all_digits_all_in.
  cbn [all_in String.eqb negb]. rewrite D1, D2, Ha, Hb. auto.
Qed.

Lemma host_not_bracket (c : ascii) :
  Re.in_set host_set c = true -> Re.in_set [("["%char, "["%char)] c = false.
Proof.
  intros H. apply not_in_set_code with (cs := host_set); [exact H|reflexivity].
Qed.

Lemma digit_not_colon (c : ascii) :
  Re.in_set Re.digit c = true -> Re.in_set [(":"%char, ":"%char)] c = false.
Proof.
  intros H. apply not_in_set_code with (cs := Re.digit); [exact H|reflexivity].
Qed.

Lemma digit_not_bracket (c : ascii) :
  Re.in_set Re.digit c = true -> Re.in_set [("]"%char, "]"%char)] c = false.
Proof.
  intros H. apply not_in_set_code with (cs := Re.digit); [exact H|reflexivity].
Qed.

Lemma is_number_inv (s : string) :
  is_number s = true ->
  exists d t, s = String d t /\ Re.in_set Re.digit d = true
              /\ all_in Re.digit t = true.
Proof.
  unfold is_number. rewrite all_digits_all_in.
  destruct s as [|d t]; simpl; [discriminate|].
  intros H. apply andb_true_iff in H as [H1 H2]. eauto.
Qed.

Lemma run_pattern_shape (s h a b rest : string) :
  pattern_shape s h a b rest ->
  Re.run pattern_items s None [] =
  Some [(Some "hostname", h); (Some "range_start", a); (Some "range_end", b)].
Proof.
  intros (-> & Hh & Ha & Hb).
  apply is_number_inv in Ha as (d1 & a' & -> & D1 & Ha).
  apply is_number_inv in Hb as (d2 & b' & -> & D2 & Hb).
  unfold pattern_items, lit. cbn [Re.run].
  rewrite greedy_maximal; [|intros c s' [g|] Hc; cbn [Re.run];
    [now rewrite (host_not_bracket c Hc) | reflexivity] | reflexivity | exact Hh].
  cbn [push_all Re.run append]. rewrite in_set_single_refl. cbn [Re.run].
  rewrite D1.
  rewrite greedy_maximal; [|intros c s' [g|] Hc;
    [now rewrite (digit_not_colon c Hc) | reflexivity] | reflexivity | exact Ha].
  rewrite push_all_push. cbn [push_all append].
  rewrite in_set_single_refl, D2.
  rewrite greedy_maximal; [|intros c s' [g|] Hc;
    [now rewrite (digit_not_bracket c Hc) | reflexivity] | reflexivity | exact Hb].
  rewrite push_all_push. cbn [push_all append].
  rewrite in_set_single_refl. reflexivity.
Qed.

(* ================================================================== *)
(** * [parse_pattern] *)

Lemma rmatch_pattern_re (s : string) :
  Re.rmatch PATTERN_RE s = Ok (Re.run pattern_items s None []).
Proof. unfold Re.rmatch. now rewrite compile_pattern_re. Qed.

Lemma parse_pattern_shape (s h a b rest : string) :
  pattern_shape s h a b rest -> parse_pattern s = Ok (descriptor h a b).
Proof.
  intros H. unfold parse_pattern. rewrite rmatch_pattern_re.
  now rewrite (run_pattern_shape _ _ _ _ _ H).
Qed.

Lemma parse_pattern_inv (s : string) (d : Py.dict) :
  parse_pattern s = Ok d ->
  exists h a b rest, pattern_shape s h a b rest /\ d = descriptor h a b.
Proof.
  unfold parse_pattern. rewrite rmatch_pattern_re. cbn [bind].
  destruct (Re.run pattern_items s None []) as [m|] eqn:E; [|discriminate].
  intros H. injection H as <-.
  destruct (run_pattern_inv _ _ E) as (h & a & b & rest & Hs & ->).
  exists h, a, b, rest. auto.
Qed.

Lemma parse_pattern_raise (s : string) (e : exn) :
  parse_pattern s = Raise e -> e = PatternError ("Invalid pattern: " ++ s).
Proof.
  unfold parse_pattern. rewrite rmatch_pattern_re. cbn [bind].
  destruct (Re.run pattern_items s None []); [discriminate|].
  intros H. now injection H as <-.
Qed.

(** A descriptor determines its fields. *)
Lemma descriptor_inj (h a b h' a' b' : string) :
  descriptor h a b = descriptor h' a' b' -> h = h' /\ a = a' /\ b = b'.
Proof. unfold descriptor. intros H. injection H as -> -> ->. auto. Qed.

Lemma parse_pattern_fields (s h a b : string) :
  parse_pattern s = Ok (descriptor h a b) ->
  all_in host_set h = true /\ is_number a = true /\ is_number b = true
  /\ exists rest, s = h ++ "[" ++ a ++ ":" ++ b ++ "]" ++ rest.
Proof.
  intros H. apply parse_pattern_inv in H as (h' & a' & b' & rest & Hs & E).
  apply descriptor_inj in E as (-> & -> & ->).
  destruct Hs as (-> & Hh & Ha & Hb). eauto 6.
Qed.

(* ================================================================== *)
(** * The pattern built for tags *)

Lemma range_pattern_loop_eq (a : string) :
  forall p, range_pattern_loop a p = p ++ slash_d (String.length a).
Proof.
  induction a as [|c a IH]; intros p; simpl.
  - now rewrite append_nil_r.
  - rewrite IH. now rewrite append_assoc.
Qed.

Lemma range_pattern_eq (a : string) :
  range_pattern a = "(" ++ slash_d (String.length a) ++ ")".
Proof.
  unfold range_pattern. rewrite range_pattern_loop_eq.
  now rewrite append_assoc.
Qed.

Lemma length_slash_d (n : nat) : String.length (slash_d n) = (2 * n)%nat.
Proof. induction n as [|n IH]; simpl; [reflexivity | rewrite IH; lia]. Qed.

Lemma host_neq (c d : ascii) :
  Re.in_set host_set c = true -> Re.in_set host_set d = false ->
  (c =? d)%char = false.
Proof. intros Hc Hd. apply Ascii.eqb_neq. intros ->. congruence. Qed.

Lemma quantified_one (cs : Re.charset) (c : ascii) (s : string) :
  (c =? "*")%char = false -> (c =? "+")%char = false ->
  (c =? "?")%char = false -> (c =? "{")%char = false ->
  Re.quantified cs (String c s) = Some (Re.One cs, String c s).
Proof. intros H1 H2 H3 H4. unfold Re.quantified. now rewrite H1, H2, H3, H4. Qed.

Lemma parse_item_host (c : ascii) (s : string) :
  Re.in_set host_set c = true ->
  Re.parse_item (String c s) = Re.quantified [(c, c)] s.
Proof.
  intros Hc. unfold Re.parse_item, Re.is_meta. cbn [existsb].
  rewrite !(host_neq c _ Hc) by reflexivity. reflexivity.
Qed.

Lemma parse_items_lits (h tail : string) (its : list Re.item) (f : nat) :
  all_in host_set h = true ->
  (forall cs, Re.quantified cs tail = Some (Re.One cs, tail)) ->
  Re.parse_items f tail = Some its ->
  Re.parse_items (String.length h + f) (h ++ tail) = Some (lits h ++ its)%list.
Proof.
  intros Hh Hq Ht. induction h as [|c h IH]; [exact Ht|].
  cbn [all_in] in Hh. apply andb_true_iff in Hh as [Hc Hh].
  cbn [String.length append Nat.add Re.parse_items lits].
  rewrite (parse_item_host _ _ Hc).
  assert (Q : Re.quantified [(c, c)] (h ++ tail)
              = Some (Re.One [(c, c)], h ++ tail)).
  { destruct h as [|c' h']; [apply Hq|].
    cbn [all_in] in Hh. apply andb_true_iff in Hh as [Hc' _].
    cbn [append]. apply quantified_one; apply host_neq; auto. }
  rewrite Q, (IH Hh). reflexivity.
Qed.

Lemma parse_items_nil (f : nat) : Re.parse_items f "" = Some [].
Proof. now destruct f. Qed.

Lemma parse_items_digits (n f : nat) :
  Re.parse_items (n + S f) (slash_d n ++ ")")
  = Some (repeat (Re.One Re.digit) n ++ [Re.Close])%list.
Proof.
  induction n as [|n IH].
  { cbn. now rewrite parse_items_nil. }
  cbn [slash_d append Nat.add Re.parse_items repeat].
  replace (Re.parse_item (String "\" (String "d" (slash_d n ++ ")"))))
    with (Some (Re.One Re.digit, slash_d n ++ ")"))
    by (destruct n; reflexivity).
  now rewrite IH.
Qed.

Lemma parse_items_group (n f : nat) :
  Re.parse_items (S (n + S f)) ("(" ++ slash_d n ++ ")")
  = Some (Re.Open None :: repeat (Re.One Re.digit) n ++ [Re.Close])%list.
Proof.
  cbn [append Re.parse_items].
  replace (Re.parse_item (String "(" (slash_d n ++ ")")))
    with (Some (Re.Open None, slash_d n ++ ")"))
    by (destruct n; reflexivity).
  now rewrite parse_items_digits.
Qed.

Lemma balanced_lits (h : string) (b : bool) (r : list Re.item) :
  Re.balanced b (lits h ++ r) = Re.balanced b r.
Proof. induction h as [|c h IH]; simpl; auto. Qed.

Lemma balanced_digits (n : nat) :
  Re.balanced true (repeat (Re.One Re.digit) n ++ [Re.Close]) = true.
Proof. induction n as [|n IH]; simpl; auto. Qed.

(** The prefix is put into the pattern as it is: its characters are all
    ordinary in the syntax of regular expressions, so the pattern built
    from a parsed descriptor always compiles, to the prefix letter by
    letter and one group of as many digits as the lower bound has
    characters. *)
Lemma compile_tag_pattern (h a : string) :
  all_in host_set h = true ->
  Re.compile (h ++ range_pattern a) = Some (tag_items h (String.length a)).
Proof.
  intros Hh. unfold Re.compile. rewrite range_pattern_eq.
  set (n := String.length a).
  replace (String.length (h ++ "(" ++ slash_d n ++ ")"))
    with (String.length h + S (n + S n))%nat
    by (rewrite length_append; cbn [append String.length];
        rewrite length_append, length_slash_d; simpl; lia).
  rewrite (parse_items_lits h ("(" ++ slash_d n ++ ")") _ _ Hh
             (fun cs => eq_refl) (parse_items_group n n)).
  fold (tag_items h n). unfold tag_items.
  rewrite balanced_lits. cbn [Re.balanced negb andb].
  now rewrite balanced_digits.
Qed.

Lemma run_lits (h s : string) (r : list Re.item) :
  forall cur done,
    Re.run (lits h ++ r) (h ++ s) cur done
    = Re.run r s (push_all cur h) done.
Proof.
  induction h as [|c h IH]; intros cur done.
  - now rewrite push_all_nil.
  - cbn [lits app append Re.run]. unfold lit at 1. cbn [Re.run].
    rewrite in_set_single_refl, IH. now rewrite push_all_push.
Qed.

Lemma run_lits_inv (h s : string) (r : list Re.item) :
  forall cur done m,
    Re.run (lits h ++ r) s cur done = Some m ->
    exists s', s = h ++ s' /\ Re.run r s' (push_all cur h) done = Some m.
Proof.
  revert s. induction h as [|c h IH]; intros s cur done m H.
  - exists s. rewrite push_all_nil. auto.
  - cbn [lits app] in H. unfold lit at 1 in H. cbn [Re.run] in H.
    destruct s as [|d s]; [discriminate|].
    destruct (Re.in_set [(c, c)] d) eqn:E; [|discriminate].
    apply in_set_single in E as <-.
    apply IH in H as (s' & -> & H). exists s'.
    rewrite push_all_push in H. auto.
Qed.

Lemma run_digits (ds s : string) (r : list Re.item) :
  all_in Re.digit ds = true ->
  forall cur done,
    Re.run (repeat (Re.One Re.digit) (String.length ds) ++ r) (ds ++ s) cur done
    = Re.run r s (push_all cur ds) done.
Proof.
  induction ds as [|c ds IH]; intros Hd cur done.
  - now rewrite push_all_nil.
  - cbn [all_in] in Hd. apply andb_true_iff in Hd as [Hc Hd].
    cbn [String.length repeat app append Re.run].
    rewrite Hc, IH by exact Hd. now rewrite push_all_push.
Qed.

Lemma run_digits_inv (n : nat) (r : list Re.item) :
  forall s cur done m,
    Re.run (repeat (Re.One Re.digit) n ++ r) s cur done = Some m ->
    exists ds s',
      s = ds ++ s' /\ String.length ds = n /\ all_in Re.digit ds = true
      /\ Re.run r s' (push_all cur ds) done = Some m.
Proof.
  induction n as [|n IH]; intros s cur done m H.
  - exists "", s. rewrite push_all_nil. auto.
  - cbn [repeat app Re.run] in H.
    destruct s as [|c s]; [discriminate|].
    destruct (Re.in_set Re.digit c) eqn:E; [|discriminate].
    apply IH in H as (ds & s' & -> & L & Hd & H).
    exists (String c ds), s'. cbn [append String.length all_in].
    rewrite E, Hd, L. rewrite push_all_push in H. auto.
Qed.

Lemma run_tag_shape (h tag ds rest : string) (w : nat) :
  tag_shape h w tag ds rest ->
  Re.run (tag_items h w) tag None [] = Some [(None, ds)].
Proof.
  intros (-> & <- & Hd). rewrite all_digits_all_in in Hd.
  unfold tag_items. rewrite run_lits. cbn [push_all Re.run].
  rewrite run_digits by exact Hd. reflexivity.
Qed.

Lemma run_tag_inv (h tag : string) (w : nat) (m : list Re.capture) :
  Re.run (tag_items h w) tag None [] = Some m ->
  exists ds rest, tag_shape h w tag ds rest /\ m = [(None, ds)].
Proof.
  unfold tag_items. intros H.
  apply run_lits_inv in H as (s' & -> & H). cbn [push_all Re.run] in H.
  apply run_digits_inv in H as (ds & rest & -> & L & Hd & H).
  cbn [push_all Re.run append rev app] in H. injection H as <-.
  exists ds, rest. unfold tag_shape. rewrite all_digits_all_in. auto.
Qed.

(* ================================================================== *)
(** * Decimal numbers: [int], [str] and padding *)

Lemma digits_value_shift (s : string) :
  forall acc,
    Py.digits_value acc s
    = acc * 10 ^ Z.of_nat (String.length s) + Py.digits_value 0 s.
Proof.
  induction s as [|c s IH]; intros acc.
  - simpl. lia.
  - cbn [Py.digits_value String.length]. rewrite IH.
    rewrite (IH (10 * 0 + Py.digit_value c)).
    rewrite Nat2Z.inj_succ, Z.pow_succ_r by lia. ring.
Qed.

Lemma value_cons (c : ascii) (s : string) :
  value (String c s)
  = Py.digit_value c * 10 ^ Z.of_nat (String.length s) + value s.
Proof.
  unfold value. cbn [Py.digits_value]. rewrite digits_value_shift. ring.
Qed.

Lemma value_snoc (s : string) (c : ascii) :
  value (s ++ String c "") = 10 * value s + Py.digit_value c.
Proof.
  unfold value. generalize 0 as acc.
  induction s as [|d s IH]; intros acc; simpl; [reflexivity | apply IH].
Qed.

Lemma value_bound (s : string) :
  Py.all_digits s = true -> 0 <= value s < 10 ^ Z.of_nat (String.length s).
Proof.
  induction s as [|c s IH]; intros H.
  - unfold value. simpl. lia.
  - cbn [Py.all_digits] in H. apply andb_true_iff in H as [Hc Hs].
    specialize (IH Hs). apply digit_value_range in Hc.
    rewrite value_cons. cbn [String.length].
    rewrite Nat2Z.inj_succ, Z.pow_succ_r by lia. nia.
Qed.

(** Two digit strings of the same length with the same value are equal. *)
Lemma value_inj (s t : string) :
  String.length s = String.length t ->
  Py.all_digits s = true -> Py.all_digits t = true ->
  value s = value t -> s = t.
Proof.
  revert t. induction s as [|c s IH]; intros [|d t] L Hs Ht E;
    try discriminate; [reflexivity|].
  injection L as L. cbn [Py.all_digits] in Hs, Ht.
  apply andb_true_iff in Hs as [Hc Hs]. apply andb_true_iff in Ht as [Hd Ht].
  rewrite !value_cons, L in E.
  pose proof (value_bound s Hs) as Bs. pose proof (value_bound t Ht) as Bt.
  rewrite L in Bs.
  destruct (Z.div_mod_unique (10 ^ Z.of_nat (String.length t))
              (Py.digit_value c) (Py.digit_value d) (value s) (value t))
    as [Eq1 Eq2]; [lia | lia | lia |].
  f_equal.
  - rewrite <- (digit_char_value c Hc), <- (digit_char_value d Hd).
    now rewrite Eq1.
  - apply IH; assumption.
Qed.

Lemma int_number (s : string) :
  is_number s = true -> Py.int s = Ok (value s).
Proof.
  unfold is_number, Py.int. destruct s as [|c s]; [discriminate|].
  cbn [String.eqb negb andb]. now intros ->.
Qed.

(** With enough fuel [decimal] writes [n]: the digits it yields are a
    number whose value is [n]. *)
Lemma decimal_spec (fuel : nat) :
  forall n, 0 <= n < 2 ^ Z.of_nat fuel -> (1 <= fuel)%nat ->
            is_number (Py.decimal fuel n) = true
            /\ value (Py.decimal fuel n) = n.
Proof.
  induction fuel as [|fuel IH]; intros n Hn Hf.
  - lia.
  - cbn [Py.decimal].
    assert (Hd : 0 <= n mod 10 <= 9) by (pose proof (Z.mod_pos_bound n 10); lia).
    destruct (digit_value_char _ Hd) as [D1 D2].
    destruct (Z.ltb_spec n 10) as [Hlt|Hge].
    + cbn [append]. split.
      * unfold is_number. cbn [String.eqb negb Py.all_digits andb].
        now rewrite D1.
      * rewrite value_cons. unfold value. simpl. rewrite D2.
        rewrite Z.mod_small; lia.
    + assert (Hq : 0 <= n / 10 < 2 ^ Z.of_nat fuel).
      { rewrite Nat2Z.inj_succ, Z.pow_succ_r in Hn by lia.
        split; [apply Z.div_pos; lia|].
        apply Z.div_lt_upper_bound; lia. }
      assert (Hf' : (1 <= fuel)%nat).
      { destruct fuel; [|lia]. simpl in Hq.
        assert (1 <= n / 10) by (apply Z.div_le_lower_bound; lia). lia. }
      destruct (IH _ Hq Hf') as [I1 I2]. split.
      * unfold is_number in *. apply andb_true_iff in I1 as [I0 I1].
        rewrite all_digits_append, I1. cbn [Py.all_digits]. rewrite D1.
        destruct (Py.decimal fuel (n / 10)); [discriminate|reflexivity].
      * rewrite value_snoc, I2, D2. pose proof (Z.div_mod n 10). lia.
Qed.

Lemma decimal_length (fuel : nat) :
  forall n k, 0 <= n < 10 ^ Z.of_nat k -> (1 <= k)%nat ->
              (String.length (Py.decimal fuel n) <= k)%nat.
Proof.
  induction fuel as [|fuel IH]; intros n k Hn Hk.
  - simpl. lia.
  - cbn [Py.decimal]. rewrite length_append. cbn [String.length].
    destruct (Z.ltb_spec n 10) as [Hlt|Hge].
    + simpl. lia.
    + destruct k as [|[|k]]; [lia | simpl in Hn; lia |].
      assert (String.length (Py.decimal fuel (n / 10)) <= S k)%nat; [|lia].
      apply IH; [|lia].
      rewrite (Nat2Z.inj_succ (S k)), Z.pow_succ_r in Hn by lia.
      split; [apply Z.div_pos; lia|].
      apply Z.div_lt_upper_bound; lia.
Qed.

Lemma str_fuel (n : Z) : 0 <= n -> 0 <= n < 2 ^ Z.of_nat (S (Z.to_nat (Z.log2 n))).
Proof.
  intros Hn. split; [exact Hn|].
  rewrite Nat2Z.inj_succ, Z2Nat.id by apply Z.log2_nonneg.
  destruct (Z.eq_dec n 0) as [->|Hz]; [reflexivity|].
  apply Z.log2_spec. lia.
Qed.

Lemma str_spec (n : Z) :
  0 <= n -> is_number (Py.str n) = true /\ value (Py.str n) = n.
Proof.
  intros Hn. unfold Py.str.
  destruct (Z.ltb_spec n 0) as [?|_]; [lia|].
  apply decimal_spec; [apply str_fuel, Hn | lia].
Qed.

Lemma int_str (n : Z) : 0 <= n -> Py.int (Py.str n) = Ok n.
Proof.
  intros Hn. destruct (str_spec n Hn) as [H1 H2].
  now rewrite (int_number _ H1), H2.
Qed.

Lemma str_length (n : Z) (k : nat) :
  0 <= n < 10 ^ Z.of_nat k -> (1 <= k)%nat ->
  (String.length (Py.str n) <= k)%nat.
Proof.
  intros Hn Hk. unfold Py.str.
  destruct (Z.ltb_spec n 0) as [?|_]; [lia|].
  now apply decimal_length.
Qed.

Lemma zeros_shift (n : nat) (s : string) :
  zeros n ++ String "0" s = String "0" (zeros n ++ s).
Proof. induction n as [|n IH]; simpl; [reflexivity | now rewrite IH]. Qed.

(** The loop of lines 103-104 left-pads with zeros to the width. *)
Lemma pad_loop_lpad0 (fuel width : nat) :
  forall s, (width - String.length s <= fuel)%nat ->
            pad_loop fuel width s = lpad0 width s.
Proof.
  unfold lpad0. induction fuel as [|fuel IH]; intros s Hf.
  - simpl. now replace (width - String.length s)%nat with O by lia.
  - cbn [pad_loop]. destruct (Nat.ltb_spec (String.length s) width) as [Hlt|Hge].
    + rewrite IH by (simpl; lia). cbn [String.length].
      replace (width - String.length s)%nat
        with (S (width - S (String.length s))) by lia.
      cbn [zeros append]. apply zeros_shift.
    + now replace (width - String.length s)%nat with O by lia.
Qed.

Lemma length_zeros (n : nat) : String.length (zeros n) = n.
Proof. induction n as [|n IH]; simpl; [reflexivity | now rewrite IH]. Qed.

Lemma all_digits_zeros (n : nat) : Py.all_digits (zeros n) = true.
Proof. induction n as [|n IH]; simpl; [reflexivity | exact IH]. Qed.

Lemma value_zeros_append (n : nat) (s : string) :
  value (zeros n ++ s) = value s.
Proof.
  induction n as [|n IH]; [reflexivity|].
  cbn [zeros append]. rewrite value_cons, IH.
  change (Py.digit_value "0") with 0. lia.
Qed.

Lemma lpad0_length (w : nat) (s : string) :
  String.length (lpad0 w s) = Nat.max w (String.length s).
Proof. unfold lpad0. rewrite length_append, length_zeros. lia. Qed.

Lemma lpad0_number (w : nat) (s : string) :
  is_number s = true ->
  is_number (lpad0 w s) = true /\ value (lpad0 w s) = value s.
Proof.
  unfold lpad0, is_number. intros H. apply andb_true_iff in H as [H0 H1].
  rewrite value_zeros_append, all_digits_append, all_digits_zeros, H1.
  split; [|reflexivity].
  destruct (w - String.length s)%nat; simpl; [|reflexivity].
  now rewrite H0.
Qed.

(** Writing the value of a number back at the width of its text gives the
    text again, leading zeros included. *)
Lemma lpad0_str_value (a : string) :
  is_number a = true -> lpad0 (String.length a) (Py.str (value a)) = a.
Proof.
  intros Ha. pose proof Ha as Ha'. unfold is_number in Ha'.
  apply andb_true_iff in Ha' as [Hne Hd].
  pose proof (value_bound a Hd) as B.
  destruct (str_spec (value a) (proj1 B)) as [S1 S2].
  destruct (lpad0_number (String.length a) _ S1) as [P1 P2].
  unfold is_number in P1. apply andb_true_iff in P1 as [_ P1].
  apply value_inj; [| exact P1 | exact Hd | now rewrite P2].
  rewrite lpad0_length.
  assert (1 <= String.length a)%nat by (destruct a; [discriminate|simpl; lia]).
  pose proof (str_length (value a) (String.length a) B H). lia.
Qed.

(* ================================================================== *)
(** * Byte order on names and numeric order on their ids *)

Lemma compare_append_head (h x y : string) :
  (h ++ x ?= h ++ y)%string = (x ?= y)%string.
Proof.
  induction h as [|c h IH]; [reflexivity|].
  cbn [append String.compare]. unfold Ascii.compare.
  now rewrite N.compare_refl.
Qed.

(** On digit runs of one length, byte order agrees with numeric order,
    whatever follows the runs. *)
Lemma compare_digits (x : string) :
  forall y r1 r2,
    String.length x = String.length y ->
    Py.all_digits x = true -> Py.all_digits y = true ->
    (x ++ r1 ?= y ++ r2)%string <> Gt ->
    value x <= value y.
Proof.
  induction x as [|c x IH]; intros [|d y] r1 r2 L Hx Hy Hc;
    simpl in L; try discriminate.
  injection L as L. cbn [Py.all_digits] in Hx, Hy.
  apply andb_true_iff in Hx as [Dc Hx]. apply andb_true_iff in Hy as [Dd Hy].
  cbn [append String.compare] in Hc. unfold Ascii.compare in Hc.
  rewrite !value_cons, L.
  pose proof (value_bound x Hx) as Bx. pose proof (value_bound y Hy) as By.
  rewrite L in Bx.
  destruct (N.compare_spec (N_of_ascii c) (N_of_ascii d)) as [E|Lt|Gt].
  - rewrite (N_of_ascii_inj _ _ E).
    specialize (IH y r1 r2 L Hx Hy Hc). lia.
  - assert (Py.digit_value c + 1 <= Py.digit_value d)
      by (unfold Py.digit_value; lia).
    nia.
  - congruence.
Qed.

Lemma tag_shape_unique (h t d1 r1 d2 r2 : string) (w : nat) :
  tag_shape h w t d1 r1 -> tag_shape h w t d2 r2 -> d1 = d2 /\ r1 = r2.
Proof.
  intros (-> & L1 & _) (E & L2 & _). apply append_inv_head in E.
  apply append_same_length in E; [auto | congruence].
Qed.

Lemma compare_shaped (h t1 d1 r1 t2 d2 r2 : string) (w : nat) :
  tag_shape h w t1 d1 r1 -> tag_shape h w t2 d2 r2 ->
  (t1 ?= t2)%string <> Gt -> value d1 <= value d2.
Proof.
  intros (-> & L1 & D1) (-> & L2 & D2) Hc.
  rewrite compare_append_head in Hc.
  apply (compare_digits d1 d2 r1 r2); congruence.
Qed.

Lemma has_id_unique (h t : string) (w : nat) (k1 k2 : Z) :
  has_id h w t k1 -> has_id h w t k2 -> k1 = k2.
Proof.
  intros (d1 & r1 & S1 & <-) (d2 & r2 & S2 & <-).
  now destruct (tag_shape_unique _ _ _ _ _ _ _ S1 S2) as [-> _].
Qed.

Lemma max_step_id (h m y : string) (w : nat) (km ky : Z) :
  has_id h w m km -> has_id h w y ky ->
  has_id h w (if (m <? y)%string then y else m) (Z.max km ky).
Proof.
  intros (dm & rm & Sm & <-) (dy & ry & Sy & <-). unfold String.ltb.
  destruct (m ?= y)%string eqn:E.
  - assert (value dm <= value dy)
      by (apply (compare_shaped _ _ _ _ _ _ _ _ Sm Sy); congruence).
    assert (value dy <= value dm).
    { apply (compare_shaped _ _ _ _ _ _ _ _ Sy Sm).
      rewrite String.compare_antisym, E. discriminate. }
    exists dm, rm. split; [exact Sm | lia].
  - assert (value dm <= value dy)
      by (apply (compare_shaped _ _ _ _ _ _ _ _ Sm Sy); congruence).
    exists dy, ry. split; [exact Sy | lia].
  - assert (value dy <= value dm).
    { apply (compare_shaped _ _ _ _ _ _ _ _ Sy Sm).
      rewrite String.compare_antisym, E. discriminate. }
    exists dm, rm. split; [exact Sm | lia].
Qed.

Lemma max_fold_id (h : string) (w : nat) (id : string -> Z) (xs : list string) :
  (forall t, In t xs -> has_id h w t (id t)) ->
  forall m, has_id h w m (id m) ->
            has_id h w
              (fold_left (fun m y => if (m <? y)%string then y else m) xs m)
              (fold_left Z.max (map id xs) (id m))
            /\ id (fold_left (fun m y => if (m <? y)%string then y else m) xs m)
               = fold_left Z.max (map id xs) (id m).
Proof.
  induction xs as [|y xs IH]; intros Hxs m Hm.
  - simpl. auto.
  - cbn [fold_left map].
    pose proof (max_step_id _ _ _ _ _ _ Hm (Hxs y (or_introl eq_refl))) as Hs.
    set (m' := if (m <? y)%string then y else m) in *.
    assert (Hm' : has_id h w m' (id m')).
    { unfold m'. destruct (m <? y)%string; [apply Hxs; now left | exact Hm]. }
    rewrite (has_id_unique _ _ _ _ _ Hs Hm').
    apply IH; [|exact Hm']. intros t Ht. apply Hxs. now right.
Qed.

(** [max] of names that all carry an id returns a name carrying the
    greatest of the ids. *)
Lemma max_has_max_id (h : string) (w : nat) (id : string -> Z)
      (taken : list string) :
  taken <> [] ->
  (forall t, In t taken -> has_id h w t (id t)) ->
  exists mx, Py.max taken = Ok mx
             /\ has_id h w mx (max_list (map id taken)).
Proof.
  destruct taken as [|x xs]; [congruence|]. intros _ H.
  eexists. split; [reflexivity|]. cbn [map max_list].
  apply max_fold_id.
  - intros t Ht. apply H. now right.
  - apply H. now left.
Qed.

Lemma fold_max_ge (ks : list Z) :
  forall k, k <= fold_left Z.max ks k
            /\ forall x, In x ks -> x <= fold_left Z.max ks k.
Proof.
  induction ks as [|y ks IH]; intros k; simpl.
  - split; [lia | tauto].
  - destruct (IH (Z.max k y)) as [H1 H2]. split; [lia|].
    intros x [->|Hx]; [lia | auto].
Qed.

Lemma max_list_ge (ks : list Z) (x : Z) : In x ks -> x <= max_list ks.
Proof.
  destruct ks as [|k ks]; [intros []|]. cbn [max_list].
  destruct (fold_max_ge ks k) as [H1 H2].
  intros [<-|Hx]; auto.
Qed.

(* ================================================================== *)
(** * Lists of generated names *)

Lemma fold_left_append_map {A B : Type} (f : A -> B) (xs : list A) :
  forall acc, fold_left (fun names i => (names ++ [f i])%list) xs acc
              = (acc ++ map f xs)%list.
Proof.
  induction xs as [|x xs IH]; intros acc; simpl.
  - now rewrite app_nil_r.
  - rewrite IH, <- app_assoc. reflexivity.
Qed.

Lemma range_length (n : Z) : List.length (Py.range 0 n) = Z.to_nat n.
Proof.
  unfold Py.range. rewrite length_map, length_seq. f_equal. lia.
Qed.

Lemma range_nth (n : Z) (i : nat) :
  (i < Z.to_nat n)%nat -> nth_error (Py.range 0 n) i = Some (Z.of_nat i).
Proof.
  intros Hi. unfold Py.range. rewrite nth_error_map.
  rewrite nth_error_seq. replace (n - 0) with n by lia.
  destruct (Nat.ltb_spec i (Z.to_nat n)); [reflexivity | lia].
Qed.

Lemma make_name_eq (h a : string) (cur i : Z) :
  make_name h a cur i = h ++ lpad0 (String.length a) (Py.str (cur + i)).
Proof. unfold make_name. rewrite pad_loop_lpad0 by lia. reflexivity. Qed.

Lemma name_id_make_name (h a : string) (cur i : Z) :
  0 <= cur + i -> name_id h (make_name h a cur i) = Ok (cur + i).
Proof.
  intros H. rewrite make_name_eq. unfold name_id. rewrite suffix_of_append.
  destruct (str_spec _ H) as [S1 S2].
  destruct (lpad0_number (String.length a) _ S1) as [P1 P2].
  rewrite (int_number _ P1). congruence.
Qed.

Lemma make_name_inj (h a : string) (cur i j : Z) :
  0 <= cur + i -> 0 <= cur + j ->
  make_name h a cur i = make_name h a cur j -> i = j.
Proof.
  intros Hi Hj E.
  pose proof (name_id_make_name h a cur i Hi) as Ni.
  pose proof (name_id_make_name h a cur j Hj) as Nj.
  rewrite E in Ni. rewrite Ni in Nj. injection Nj as Nj. lia.
Qed.

Lemma getitem_hostname (h a b : string) :
  Py.getitem (descriptor h a b) "hostname" = Ok h.
Proof. reflexivity. Qed.

Lemma getitem_range_start (h a b : string) :
  Py.getitem (descriptor h a b) "range_start" = Ok a.
Proof. reflexivity. Qed.

Lemma getitem_range_end (h a b : string) :
  Py.getitem (descriptor h a b) "range_end" = Ok b.
Proof. reflexivity. Qed.

Lemma is_number_length (s : string) :
  is_number s = true -> (1 <= String.length s)%nat.
Proof. destruct s; [discriminate | simpl; lia]. Qed.

Lemma digits_number (s : string) :
  Py.all_digits s = true -> (1 <= String.length s)%nat -> is_number s = true.
Proof.
  intros H L. unfold is_number. rewrite H.
  destruct s; [simpl in L; lia | reflexivity].
Qed.

Lemma conforms_inv (h : string) (w : nat) (lo hi : Z) (t : string) :
  conforms h w lo hi t = true ->
  t = h ++ suffix_of h t /\ String.length (suffix_of h t) = w
  /\ Py.all_digits (suffix_of h t) = true
  /\ lo <= value (suffix_of h t) <= hi.
Proof.
  unfold conforms. rewrite !andb_true_iff.
  intros ((((E & L) & D) & H1) & H2).
  apply String.eqb_eq in E. apply Nat.eqb_eq in L.
  apply Z.leb_le in H1. apply Z.leb_le in H2. auto.
Qed.

Lemma conforms_shape (h ds : string) (w : nat) (lo hi : Z) :
  String.length ds = w -> Py.all_digits ds = true -> lo <= value ds <= hi ->
  conforms h w lo hi (h ++ ds) = true.
Proof.
  intros L D H. unfold conforms. rewrite suffix_of_append.
  rewrite String.eqb_refl, L, Nat.eqb_refl, D. cbn [andb].
  apply andb_true_iff. split; apply Z.leb_le; lia.
Qed.

Lemma conforms_has_id (h : string) (w : nat) (lo hi : Z) (t : string) :
  conforms h w lo hi t = true -> has_id h w t (value (suffix_of h t)).
Proof.
  intros H. apply conforms_inv in H as (E & L & D & _).
  exists (suffix_of h t), "". split; [|reflexivity].
  unfold tag_shape. rewrite append_nil_r. auto.
Qed.

(* ================================================================== *)
(** * The functions on a pattern that parses *)

Section ValidPattern.

Variables pattern h a b : string.
Hypothesis Hparse : parse_pattern pattern = Ok (descriptor h a b).

Lemma valid_host : all_in host_set h = true.
Proof. apply (parse_pattern_fields _ _ _ _ Hparse). Qed.

Lemma valid_start : is_number a = true.
Proof. apply (parse_pattern_fields _ _ _ _ Hparse). Qed.

Lemma valid_end : is_number b = true.
Proof. apply (parse_pattern_fields _ _ _ _ Hparse). Qed.

Lemma tag_match (tag : string) :
  Re.rmatch (h ++ range_pattern a) tag
  = Ok (Re.run (tag_items h (String.length a)) tag None []).
Proof. unfold Re.rmatch. now rewrite (compile_tag_pattern h a valid_host). Qed.

Ltac open_pattern :=
  rewrite Hparse; cbn [bind];
  rewrite getitem_hostname; cbn [bind];
  rewrite getitem_range_start; cbn [bind];
  rewrite (int_number a valid_start); cbn [bind];
  rewrite getitem_range_end; cbn [bind];
  rewrite (int_number b valid_end); cbn [bind].

Lemma tag_shape_number (tag ds rest : string) :
  tag_shape h (String.length a) tag ds rest -> is_number ds = true.
Proof.
  intros (_ & L & D). apply digits_number; [exact D|].
  rewrite L. apply is_number_length, valid_start.
Qed.

(** The tag matched: both functions see the value of its digits. *)
Lemma matched_id_shape (tag : string) (k : Z) :
  has_id h (String.length a) tag k -> matched_id pattern tag = Ok (Some k).
Proof.
  intros (ds & rest & Hs & <-). unfold matched_id. open_pattern.
  rewrite tag_match. cbn [bind]. rewrite (run_tag_shape _ _ _ _ _ Hs).
  cbn [Re.group pred nth_error bind].
  now rewrite (int_number _ (tag_shape_number _ _ _ Hs)).
Qed.

Lemma matched_id_none (tag : string) :
  (forall ds rest, ~ tag_shape h (String.length a) tag ds rest) ->
  matched_id pattern tag = Ok None.
Proof.
  intros Hn. unfold matched_id. open_pattern. rewrite tag_match. cbn [bind].
  destruct (Re.run _ tag None []) as [m|] eqn:E; [|reflexivity].
  apply run_tag_inv in E as (ds & rest & Hs & _). now apply Hn in Hs.
Qed.

Lemma shape_or_not (tag : string) :
  (exists k, has_id h (String.length a) tag k)
  \/ (forall ds rest, ~ tag_shape h (String.length a) tag ds rest).
Proof.
  destruct (Re.run (tag_items h (String.length a)) tag None []) as [m|] eqn:E.
  - apply run_tag_inv in E as (ds & rest & Hs & _). left.
    exists (value ds), ds, rest. auto.
  - right. intros ds rest Hs.
    rewrite (run_tag_shape _ _ _ _ _ Hs) in E. discriminate.
Qed.

Lemma check_pattern_matched {A : Type} (tag : string) (taken : A) :
  check_pattern pattern tag taken
  = (m <- matched_id pattern tag ;;
     Ok (match m with
         | Some k => (value a <=? k)%Z && (k <=? value b)%Z
         | None => false
         end)).
Proof.
  unfold check_pattern, matched_id. open_pattern.
  rewrite tag_match. cbn [bind].
  destruct (Re.run _ tag None []) as [m|]; [|reflexivity].
  destruct (Re.group m 1) as [g|e]; [|reflexivity]. cbn [bind].
  destruct (Py.int g) as [k|e]; reflexivity.
Qed.

Lemma fresh_names_empty (n : Z) :
  fresh_names pattern [] n
  = Ok (map (make_name h a (value a)) (Py.range 0 n)).
Proof.
  unfold fresh_names. open_pattern. cbn [Py.len List.length Z.of_nat Z.ltb
    Z.compare bind].
  now rewrite fold_left_append_map.
Qed.

Lemma len_positive (taken : list string) :
  taken <> [] -> (0 <? Py.len taken)%Z = true.
Proof.
  intros H. apply Z.ltb_lt. unfold Py.len.
  destruct taken; [congruence | simpl; lia].
Qed.

Lemma fresh_names_matched (taken : list string) (mx : string) (k n : Z) :
  taken <> [] -> Py.max taken = Ok mx ->
  has_id h (String.length a) mx k ->
  fresh_names pattern taken n
  = Ok (map (make_name h a (k + 1)) (Py.range 0 n)).
Proof.
  intros Hne Hmax (ds & rest & Hs & <-). unfold fresh_names. open_pattern.
  rewrite (len_positive _ Hne), Hmax. cbn [bind].
  rewrite tag_match. cbn [bind]. rewrite (run_tag_shape _ _ _ _ _ Hs).
  cbn [Re.group pred nth_error bind].
  rewrite (int_number _ (tag_shape_number _ _ _ Hs)). cbn [bind].
  now rewrite fold_left_append_map.
Qed.

Lemma fresh_names_unmatched (taken : list string) (mx : string) (n : Z) :
  taken <> [] -> Py.max taken = Ok mx ->
  (forall ds rest, ~ tag_shape h (String.length a) mx ds rest) ->
  fresh_names pattern taken n = Raise AttributeError.
Proof.
  intros Hne Hmax Hn. unfold fresh_names. open_pattern.
  rewrite (len_positive _ Hne), Hmax. cbn [bind].
  rewrite tag_match. cbn [bind].
  destruct (Re.run _ mx None []) as [m|] eqn:E; [|reflexivity].
  apply run_tag_inv in E as (ds & rest & Hs & _). now apply Hn in Hs.
Qed.

(** With conforming names taken, the allocation starts right after the
    greatest id in use, or at the lower bound when nothing is taken. *)
Lemma fresh_names_conforming (taken : list string) (n : Z) :
  (forall t, In t taken ->
             conforms h (String.length a) (value a) (value b) t = true) ->
  fresh_names pattern taken n
  = Ok (map (make_name h a (start_id h (value a) taken)) (Py.range 0 n))
  /\ 0 <= start_id h (value a) taken
  /\ forall t, In t taken ->
               value (suffix_of h t) < start_id h (value a) taken.
Proof.
  intros Hc. destruct taken as [|x xs] eqn:Et.
  - rewrite fresh_names_empty. cbn [start_id]. split; [reflexivity|].
    split; [|intros t []].
    pose proof valid_start as Ha. unfold is_number in Ha.
    apply andb_true_iff in Ha as [_ Ha]. apply (value_bound a Ha).
  - rewrite <- Et in *.
    assert (Hne : taken <> []) by (rewrite Et; discriminate).
    destruct (max_has_max_id h (String.length a)
                (fun t => value (suffix_of h t)) taken Hne)
      as (mx & Hmax & Hid).
    { intros t Ht. eapply conforms_has_id, Hc, Ht. }
    rewrite (fresh_names_matched taken mx _ n Hne Hmax Hid).
    assert (Es : start_id h (value a) taken
                 = max_list (taken_ids h taken) + 1)
      by (rewrite Et; reflexivity).
    rewrite Es. unfold taken_ids. split; [reflexivity|].
    assert (Hge : forall t, In t taken ->
              value (suffix_of h t)
              <= max_list (map (fun t => value (suffix_of h t)) taken)).
    { intros t Ht. apply max_list_ge, in_map_iff. eauto. }
    split.
    + destruct Hid as (ds & rest & (_ & _ & D) & <-).
      pose proof (value_bound ds D). lia.
    + intros t Ht. specialize (Hge t Ht). lia.
Qed.

End ValidPattern.

(** The names called conforming here are names the membership test
    accepts. *)
Lemma conforms_check_pattern {A : Type} (pattern h a b t : string)
      (taken : A) :
  parse_pattern pattern = Ok (descriptor h a b) ->
  conforms h (String.length a) (value a) (value b) t = true ->
  check_pattern pattern t taken = Ok true.
Proof.
  intros Hp Hc. rewrite (check_pattern_matched _ _ _ _ Hp).
  rewrite (matched_id_shape _ _ _ _ Hp _ _ (conforms_has_id _ _ _ _ _ Hc)).
  cbn [bind]. apply conforms_inv in Hc as (_ & _ & _ & H). f_equal.
  apply andb_true_iff. split; apply Z.leb_le; lia.
Qed.

(* ================================================================== *)
(** * Properties of the allocator *)

Lemma names_length {A : Type} (f : Z -> A) (n : Z) :
  0 <= n -> Z.of_nat (List.length (map f (Py.range 0 n))) = n.
Proof. intros H. rewrite length_map, range_length. lia. Qed.

Lemma names_nth {A : Type} (f : Z -> A) (n : Z) (i : nat) :
  nth_error (map f (Py.range 0 n)) i
  = if (i <? Z.to_nat n)%nat then Some (f (Z.of_nat i)) else None.
Proof.
  rewrite nth_error_map. destruct (Nat.ltb_spec i (Z.to_nat n)) as [H|H].
  - now rewrite range_nth.
  - assert (E : nth_error (Py.range 0 n) i = None)
      by (apply nth_error_None; rewrite range_length; lia).
    now rewrite E.
Qed.

Lemma conforming_forall (h : string) (w : nat) (lo hi : Z)
      (taken : list string) :
  forallb (conforms h w lo hi) taken = true ->
  forall t, In t taken -> conforms h w lo hi t = true.
Proof. intros H. now apply forallb_forall. Qed.

(** C1, as stated, does not hold of the code: with both ids of
    [srv[01:02]] taken, one more name is asked for and [fresh_names]
    returns [srv03] instead of failing. *)
Lemma fresh_names_srv_overflow :
  fresh_names "srv[01:02]" ["srv01"; "srv02"] 1 = Ok ["srv03"].
Proof. vm_compute. reflexivity. Qed.

(** C1 (amended): [fresh_names] has no capacity check.  For a pattern that
    parses, conforming taken names and a count of at least one, when the
    last id to emit lies strictly above the upper bound the allocator
    still returns the full sequence of [count] names, and its last name
    carries that id. *)
Theorem fresh_names_past_upper (pattern h a b : string)
        (taken : list string) (n : Z) :
  parse_pattern pattern = Ok (descriptor h a b) ->
  forallb (conforms h (String.length a) (value a) (value b)) taken = true ->
  1 <= n ->
  value b < start_id h (value a) taken + (n - 1) ->
  exists names last,
    fresh_names pattern taken n = Ok names
    /\ Z.of_nat (List.length names) = n
    /\ nth_error names (Z.to_nat (n - 1)) = Some last
    /\ name_id h last = Ok (start_id h (value a) taken + (n - 1)).
Proof.
  intros Hp Hc Hn Hover.
  destruct (fresh_names_conforming _ _ _ _ Hp taken n
              (conforming_forall _ _ _ _ _ Hc)) as (E & Hs & _).
  eexists. eexists. split; [exact E|]. split; [apply names_length; lia|].
  rewrite names_nth.
  destruct (Nat.ltb_spec (Z.to_nat (n - 1)) (Z.to_nat n)); [|lia].
  split; [reflexivity|].
  rewrite Z2Nat.id by lia. apply name_id_make_name. lia.
Qed.

Lemma fresh_names_past_upper_witness :
  exists names last,
    fresh_names "srv[01:02]" ["srv01"; "srv02"] 1 = Ok names
    /\ Z.of_nat (List.length names) = 1
    /\ nth_error names (Z.to_nat (1 - 1)) = Some last
    /\ name_id "srv" last
       = Ok (start_id "srv" (value "01") ["srv01"; "srv02"] + (1 - 1)).
Proof.
  apply (fresh_names_past_upper "srv[01:02]" "srv" "01" "02"
           ["srv01"; "srv02"] 1);
    [vm_compute; reflexivity | vm_compute; reflexivity | lia
    | vm_compute; reflexivity].
Defined.

(** C3: for a pattern that parses, conforming taken names and a count
    [n >= 0], [fresh_names] returns exactly [n] names; the first id is the
    greatest taken id plus one, or the lower bound when nothing is taken,
    and the [i]-th name is the prefix followed by the decimal string of
    [start + i] left-padded with zeros to the width. *)
Theorem fresh_names_sequence (pattern h a b : string)
        (taken : list string) (n : Z) :
  parse_pattern pattern = Ok (descriptor h a b) ->
  forallb (conforms h (String.length a) (value a) (value b)) taken = true ->
  0 <= n ->
  exists names,
    fresh_names pattern taken n = Ok names
    /\ Z.of_nat (List.length names) = n
    /\ forall i, 0 <= i < n ->
         nth_error names (Z.to_nat i)
         = Some (h ++ lpad0 (String.length a)
                         (Py.str (start_id h (value a) taken + i))).
Proof.
  intros Hp Hc Hn.
  destruct (fresh_names_conforming _ _ _ _ Hp taken n
              (conforming_forall _ _ _ _ _ Hc)) as (E & _ & _).
  eexists. split; [exact E|]. split; [now apply names_length|].
  intros i Hi. rewrite names_nth.
  destruct (Nat.ltb_spec (Z.to_nat i) (Z.to_nat n)); [|lia].
  rewrite Z2Nat.id by lia. now rewrite make_name_eq.
Qed.

Lemma fresh_names_sequence_witness :
  exists names,
    fresh_names "host[01:05]" ["host01"; "host02"] 2 = Ok names
    /\ Z.of_nat (List.length names) = 2
    /\ forall i, 0 <= i < 2 ->
         nth_error names (Z.to_nat i)
         = Some ("host" ++ lpad0 (String.length "01")
                   (Py.str (start_id "host" (value "01")
                              ["host01"; "host02"] + i))).
Proof.
  apply (fresh_names_sequence "host[01:05]" "host" "01" "05"
           ["host01"; "host02"] 2);
    [vm_compute; reflexivity | vm_compute; reflexivity | lia].
Defined.

Lemma names_in {A : Type} (f : Z -> A) (n : Z) (x : A) :
  In x (map f (Py.range 0 n)) -> exists i, 0 <= i < n /\ x = f i.
Proof.
  intros H. apply in_map_iff in H as (i & <- & Hi). exists i.
  split; [|reflexivity]. unfold Py.range in Hi.
  apply in_map_iff in Hi as (k & <- & Hk). apply in_seq in Hk. lia.
Qed.

Lemma range_nodup (n : Z) : NoDup (Py.range 0 n).
Proof.
  unfold Py.range. apply NoDup_map_NoDup_ForallPairs; [|apply seq_NoDup].
  intros x y _ _ E. lia.
Qed.

(** C5: for a pattern that parses, conforming taken names and a count
    [n >= 0], the names [fresh_names] returns are pairwise distinct, and
    the number each of them carries after the prefix is not the id of any
    taken name (the set of taken names may also be empty). *)
Theorem fresh_names_distinct_unused (pattern h a b : string)
        (taken : list string) (n : Z) :
  parse_pattern pattern = Ok (descriptor h a b) ->
  forallb (conforms h (String.length a) (value a) (value b)) taken = true ->
  0 <= n ->
  exists names,
    fresh_names pattern taken n = Ok names
    /\ NoDup names
    /\ forall name, In name names ->
         exists k, name_id h name = Ok k /\ ~ In k (taken_ids h taken).
Proof.
  intros Hp Hc Hn.
  destruct (fresh_names_conforming _ _ _ _ Hp taken n
              (conforming_forall _ _ _ _ _ Hc)) as (E & Hs & Hlt).
  eexists. split; [exact E|]. split.
  - apply NoDup_map_NoDup_ForallPairs; [|apply range_nodup].
    intros i j Hi Hj Eq.
    assert (Bi : 0 <= i).
    { unfold Py.range in Hi. apply in_map_iff in Hi as (k & <- & _). lia. }
    assert (Bj : 0 <= j).
    { unfold Py.range in Hj. apply in_map_iff in Hj as (k & <- & _). lia. }
    apply (make_name_inj h a (start_id h (value a) taken)); auto; lia.
  - intros name Hin. apply names_in in Hin as (i & Hi & ->).
    exists (start_id h (value a) taken + i).
    split; [apply name_id_make_name; lia|].
    unfold taken_ids. intros Hk. apply in_map_iff in Hk as (t & Et & Ht).
    specialize (Hlt t Ht). lia.
Qed.

Lemma fresh_names_distinct_unused_witness :
  exists names,
    fresh_names "host[01:05]" ["host01"; "host02"] 2 = Ok names
    /\ NoDup names
    /\ forall name, In name names ->
         exists k, name_id "host" name = Ok k
                   /\ ~ In k (taken_ids "host" ["host01"; "host02"]).
Proof.
  apply (fresh_names_distinct_unused "host[01:05]" "host" "01" "05"
           ["host01"; "host02"] 2);
    [vm_compute; reflexivity | vm_compute; reflexivity | lia].
Defined.

(** C6: for a pattern that parses, conforming taken names and a count
    [n >= 0], the ids of the names [fresh_names] returns are consecutive:
    each name carries the number of the name before it plus one. *)
Theorem fresh_names_consecutive (pattern h a b : string)
        (taken : list string) (n : Z) :
  parse_pattern pattern = Ok (descriptor h a b) ->
  forallb (conforms h (String.length a) (value a) (value b)) taken = true ->
  0 <= n ->
  exists names,
    fresh_names pattern taken n = Ok names
    /\ forall i name next,
         nth_error names i = Some name ->
         nth_error names (S i) = Some next ->
         exists k, name_id h name = Ok k /\ name_id h next = Ok (k + 1).
Proof.
  intros Hp Hc Hn.
  destruct (fresh_names_conforming _ _ _ _ Hp taken n
              (conforming_forall _ _ _ _ _ Hc)) as (E & Hs & _).
  eexists. split; [exact E|]. intros i name next H1 H2.
  rewrite names_nth in H1, H2.
  destruct (Nat.ltb_spec i (Z.to_nat n)); [|discriminate].
  destruct (Nat.ltb_spec (S i) (Z.to_nat n)); [|discriminate].
  injection H1 as <-. injection H2 as <-.
  exists (start_id h (value a) taken + Z.of_nat i). split.
  - apply name_id_make_name. lia.
  - rewrite name_id_make_name by lia. f_equal. lia.
Qed.

Lemma fresh_names_consecutive_witness :
  exists names,
    fresh_names "node[000:010]" [] 3 = Ok names
    /\ forall i name next,
         nth_error names i = Some name ->
         nth_error names (S i) = Some next ->
         exists k, name_id "node" name = Ok k
                   /\ name_id "node" next = Ok (k + 1).
Proof.
  apply (fresh_names_consecutive "node[000:010]" "node" "000" "010" [] 3);
    [vm_compute; reflexivity | vm_compute; reflexivity | lia].
Defined.

(** C10: for a pattern that parses, when [taken] is not empty and its
    greatest element does not begin with the prefix followed by as many
    digits as the width, [fresh_names] fails for any count: the match is
    [None] and reading its group raises [AttributeError]. *)
Theorem fresh_names_unmatched_max_fails (pattern h a b : string)
        (taken : list string) (mx : string) (n : Z) :
  parse_pattern pattern = Ok (descriptor h a b) ->
  taken <> [] ->
  Py.max taken = Ok mx ->
  (forall ds rest, ~ tag_shape h (String.length a) mx ds rest) ->
  fresh_names pattern taken n = Raise AttributeError.
Proof. intros Hp. apply (fresh_names_unmatched _ _ _ _ Hp). Qed.

Lemma fresh_names_unmatched_max_fails_witness :
  fresh_names "srv[01:02]" ["srv01"; "zzz"] 1 = Raise AttributeError.
Proof.
  apply (fresh_names_unmatched_max_fails "srv[01:02]" "srv" "01" "02"
           ["srv01"; "zzz"] "zzz" 1).
  - vm_compute; reflexivity.
  - discriminate.
  - vm_compute; reflexivity.
  - intros ds rest (E & _). simpl in E. discriminate E.
Defined.

(* ================================================================== *)
(** * Properties of the parser *)

(** C4, as stated, does not hold of the code: characters after the closing
    bracket fall outside the grammar, yet the pattern is accepted. *)
Lemma parse_pattern_trailing_accepted :
  parse_pattern "myhost[01:99]extra" = Ok (descriptor "myhost" "01" "99")
  /\ ~ whole_pattern "myhost[01:99]extra".
Proof.
  split; [vm_compute; reflexivity|].
  intros (h & a & b & Hs).
  pose proof (parse_pattern_shape _ _ _ _ _ Hs) as Hp.
  vm_compute in Hp. injection Hp as <- <- <-.
  destruct Hs as (E & _). vm_compute in E. discriminate E.
Qed.

(** C4 (amended): [parse_pattern] fails, with [PatternError], exactly when
    the string does not begin with a prefix of letters, digits, underscore
    and hyphen followed by a bracketed pair of unsigned decimal integers
    separated by a colon; whatever follows the closing bracket is ignored.
    It raises nothing else, and [myhost-01], which has no brackets, fails. *)
Theorem parse_pattern_fails_iff :
  (forall raw,
      parse_pattern raw = Raise (PatternError ("Invalid pattern: " ++ raw))
      <-> ~ exists h a b rest, pattern_shape raw h a b rest)
  /\ (forall raw e,
         parse_pattern raw = Raise e
         -> e = PatternError ("Invalid pattern: " ++ raw))
  /\ parse_pattern "myhost-01"
     = Raise (PatternError "Invalid pattern: myhost-01").
Proof.
  split; [|split; [exact parse_pattern_raise | vm_compute; reflexivity]].
  intros raw. split.
  - intros Hr (h & a & b & rest & Hs).
    rewrite (parse_pattern_shape _ _ _ _ _ Hs) in Hr. discriminate.
  - intros Hn. destruct (parse_pattern raw) as [d|e] eqn:E.
    + exfalso. apply Hn.
      apply parse_pattern_inv in E as (h & a & b & rest & Hs & _). eauto.
    + now rewrite (parse_pattern_raise _ _ E).
Qed.

(** C8: for a pattern that parses, the pattern text begins with the parsed
    prefix, an opening bracket and the lower bound as written; rendering
    the parsed prefix followed by the parsed lower bound, an integer,
    zero-padded to the width gives back the prefix followed by the lower
    bound as written, character for character.  The rendering of
    [fresh_names] ([make_name]) does the same. *)
Theorem parse_pattern_lower_roundtrip (pattern : string) (d : Py.dict) :
  parse_pattern pattern = Ok d ->
  exists h a b rest lower,
    d = descriptor h a b
    /\ pattern = h ++ "[" ++ a ++ ":" ++ b ++ "]" ++ rest
    /\ Py.int a = Ok lower
    /\ h ++ lpad0 (String.length a) (Py.str lower) = h ++ a
    /\ make_name h a lower 0 = h ++ a.
Proof.
  intros Hp. apply parse_pattern_inv in Hp as (h & a & b & rest & Hs & ->).
  destruct Hs as (-> & Hh & Ha & Hb).
  exists h, a, b, rest, (value a).
  split; [reflexivity|]. split; [reflexivity|].
  split; [apply int_number, Ha|].
  rewrite make_name_eq, Z.add_0_r, (lpad0_str_value _ Ha). auto.
Qed.

Lemma parse_pattern_lower_roundtrip_witness :
  exists h a b rest lower,
    descriptor "myhost" "007" "099" = descriptor h a b
    /\ "myhost[007:099]" = h ++ "[" ++ a ++ ":" ++ b ++ "]" ++ rest
    /\ Py.int a = Ok lower
    /\ h ++ lpad0 (String.length a) (Py.str lower) = h ++ a
    /\ make_name h a lower 0 = h ++ a.
Proof.
  apply (parse_pattern_lower_roundtrip "myhost[007:099]"
           (descriptor "myhost" "007" "099")).
  vm_compute; reflexivity.
Defined.

(* ================================================================== *)
(** * Properties of the membership test *)

(** C2, as stated, does not hold of the code: [host123extra] is reported
    as a match of [host[001:999]], with id 123, although it is not the
    prefix followed by 123 padded to three digits. *)
Lemma check_pattern_trailing_accepted :
  check_pattern "host[001:999]" "host123extra" (@nil string) = Ok true
  /\ matched_id "host[001:999]" "host123extra" = Ok (Some 123)
  /\ "host123extra" <> "host" ++ lpad0 3 (Py.str 123).
Proof.
  split; [vm_compute; reflexivity|]. split; [vm_compute; reflexivity|].
  vm_compute. discriminate.
Qed.

(** C2 (amended): for a pattern that parses, [check_pattern] never fails:
    it returns [True] or [False].  It reports a match, that is returns
    [True], if and only if the candidate begins with the prefix followed by
    as many decimal digits as the lower bound is written with and the value
    [k] of those digits satisfies [lower <= k <= upper]; what follows them
    in the candidate is ignored.  For any other candidate (a different
    prefix, fewer digits, a value out of range) it reports no match, that
    is returns [False].  When it reports a match the id it extracted is
    that [k]. *)
Theorem check_pattern_prefix_match {A : Type} (pattern h a b tag : string)
        (taken : A) :
  parse_pattern pattern = Ok (descriptor h a b) ->
  (check_pattern pattern tag taken = Ok true
   \/ check_pattern pattern tag taken = Ok false)
  /\ (check_pattern pattern tag taken = Ok true
      <-> exists k ds rest,
            value a <= k <= value b
            /\ tag = h ++ ds ++ rest
            /\ String.length ds = String.length a
            /\ Py.all_digits ds = true
            /\ value ds = k)
  /\ (check_pattern pattern tag taken = Ok false
      <-> ~ exists k ds rest,
              value a <= k <= value b
              /\ tag = h ++ ds ++ rest
              /\ String.length ds = String.length a
              /\ Py.all_digits ds = true
              /\ value ds = k)
  /\ forall k,
       (check_pattern pattern tag taken = Ok true
        /\ matched_id pattern tag = Ok (Some k))
       <-> (value a <= k <= value b
            /\ exists ds rest,
                 tag = h ++ ds ++ rest
                 /\ String.length ds = String.length a
                 /\ Py.all_digits ds = true
                 /\ value ds = k).
Proof.
  intros Hp. rewrite (check_pattern_matched _ _ _ _ Hp).
  destruct (shape_or_not h a tag) as [(k' & Hid)|Hn].
  - rewrite (matched_id_shape _ _ _ _ Hp _ _ Hid). cbn [bind].
    assert (Hiff : ((value a <=? k')%Z && (k' <=? value b)%Z = true)
                   <-> exists k ds rest,
                         value a <= k <= value b
                         /\ tag = h ++ ds ++ rest
                         /\ String.length ds = String.length a
                         /\ Py.all_digits ds = true
                         /\ value ds = k).
    { split.
      - intros Hr. apply andb_true_iff in Hr as [H1 H2].
        apply Z.leb_le in H1. apply Z.leb_le in H2.
        destruct Hid as (ds & rest & (E & L & D) & V).
        exists k', ds, rest. repeat split; auto.
      - intros (k & ds & rest & Hr & E & L & D & V).
        assert (Hid' : has_id h (String.length a) tag k)
          by (exists ds, rest; unfold tag_shape; auto).
        rewrite (has_id_unique _ _ _ _ _ Hid Hid').
        apply andb_true_iff. split; apply Z.leb_le; lia. }
    destruct ((value a <=? k')%Z && (k' <=? value b)%Z) eqn:Er.
    + split; [now left|]. split; [|split].
      * split; [intros _; now apply Hiff | reflexivity].
      * split; [discriminate|]. intros Hne. exfalso. now apply Hne, Hiff.
      * intros k. split.
        -- intros (_ & Hk). injection Hk as <-.
           destruct (proj1 Hiff eq_refl)
             as (k & ds & rest & Hr & E & L & D & V).
           assert (Hid' : has_id h (String.length a) tag k)
             by (exists ds, rest; unfold tag_shape; auto).
           rewrite (has_id_unique _ _ _ _ _ Hid Hid'). eauto 8.
        -- intros (Hr & ds & rest & E & L & D & V).
           assert (Hid' : has_id h (String.length a) tag k)
             by (exists ds, rest; unfold tag_shape; auto).
           now rewrite (has_id_unique _ _ _ _ _ Hid Hid').
    + split; [now right|]. split; [|split].
      * split; [discriminate|]. intros He. now apply Hiff in He.
      * split; [|reflexivity]. intros _ He. now apply Hiff in He.
      * intros k. split; [intros (Hr & _); discriminate Hr|].
        intros (Hr & ds & rest & E & L & D & V). exfalso.
        assert (He : false = true); [|discriminate He].
        apply Hiff. exists k, ds, rest. auto.
  - rewrite (matched_id_none _ _ _ _ Hp _ Hn). cbn [bind].
    assert (Hno : ~ exists k ds rest,
                      value a <= k <= value b
                      /\ tag = h ++ ds ++ rest
                      /\ String.length ds = String.length a
                      /\ Py.all_digits ds = true
                      /\ value ds = k).
    { intros (k & ds & rest & _ & E & L & D & _).
      apply (Hn ds rest). unfold tag_shape. auto. }
    split; [now right|]. split; [|split].
    + split; [discriminate | intros He; now apply Hno in He].
    + split; [intros _; exact Hno | reflexivity].
    + intros k. split; [intros (Hr & _); discriminate Hr|].
      intros (Hr & ds & rest & E & L & D & V). exfalso.
      apply Hno. exists k, ds, rest. auto.
Qed.

Lemma check_pattern_prefix_match_witness :
  (check_pattern "host[001:999]" "host123extra" (@nil string) = Ok true
   \/ check_pattern "host[001:999]" "host123extra" (@nil string) = Ok false)
  /\ (check_pattern "host[001:999]" "host123extra" (@nil string) = Ok true
      <-> exists k ds rest,
            value "001" <= k <= value "999"
            /\ "host123extra" = "host" ++ ds ++ rest
            /\ String.length ds = String.length "001"
            /\ Py.all_digits ds = true
            /\ value ds = k)
  /\ (check_pattern "host[001:999]" "host123extra" (@nil string) = Ok false
      <-> ~ exists k ds rest,
              value "001" <= k <= value "999"
              /\ "host123extra" = "host" ++ ds ++ rest
              /\ String.length ds = String.length "001"
              /\ Py.all_digits ds = true
              /\ value ds = k)
  /\ forall k,
       (check_pattern "host[001:999]" "host123extra" (@nil string) = Ok true
        /\ matched_id "host[001:999]" "host123extra" = Ok (Some k))
       <-> (value "001" <= k <= value "999"
            /\ exists ds rest,
                 "host123extra" = "host" ++ ds ++ rest
                 /\ String.length ds = String.length "001"
                 /\ Py.all_digits ds = true
                 /\ value ds = k).
Proof.
  apply (check_pattern_prefix_match "host[001:999]" "host" "001" "999"
           "host123extra" (@nil string)).
  vm_compute; reflexivity.
Defined.

(** C7: for the pattern [web[1:9]], [check_pattern] reports a match for
    the candidate [web5], the id it extracts being 5, and reports no match
    for the candidate [web05]. *)
Theorem check_pattern_web :
  check_pattern "web[1:9]" "web5" (@nil string) = Ok true
  /\ matched_id "web[1:9]" "web5" = Ok (Some 5)
  /\ check_pattern "web[1:9]" "web05" (@nil string) = Ok false.
Proof. repeat split; vm_compute; reflexivity. Qed.

(** C9: the result of [check_pattern] does not depend on its third
    argument, whatever its type and value: [taken] is never read. *)
Theorem check_pattern_ignores_taken {A B : Type} (pattern tag : string)
        (taken1 : A) (taken2 : B) :
  check_pattern pattern tag taken1 = check_pattern pattern tag taken2.
Proof. reflexivity. Qed.

(* ================================================================== *)
(** * Further properties of the parser and of [range_pattern] *)

(** X1: a prefix of letters, digits, underscore and hyphen followed by two
    bracketed numbers always parses, to exactly the three texts as written:
    leading zeros are kept, nothing asks the lower bound to be below the
    upper one, and what follows the closing bracket is dropped. *)
Theorem parse_pattern_render (h a b rest : string) :
  all_in host_set h = true ->
  is_number a = true ->
  is_number b = true ->
  parse_pattern (h ++ "[" ++ a ++ ":" ++ b ++ "]" ++ rest)
  = Ok (descriptor h a b).
Proof.
  intros Hh Ha Hb. apply (parse_pattern_shape _ h a b rest).
  unfold pattern_shape. auto.
Qed.

Lemma parse_pattern_render_witness :
  parse_pattern ("db-1" ++ "[" ++ "09" ++ ":" ++ "003" ++ "]" ++ ".local")
  = Ok (descriptor "db-1" "09" "003").
Proof.
  apply (parse_pattern_render "db-1" "09" "003" ".local"); reflexivity.
Defined.

Lemma rmatch_range_pattern (s t : string) :
  Re.rmatch (range_pattern s) t
  = Ok (Re.run (tag_items "" (String.length s)) t None []).
Proof.
  pose proof (compile_tag_pattern "" s eq_refl) as H. cbn [append] in H.
  unfold Re.rmatch. now rewrite H.
Qed.

(** X2: the pattern text [range_pattern] builds depends only on the length
    of its argument, and it matches exactly the strings that begin with
    that many decimal digits, which it captures as its one group. *)
Theorem range_pattern_digits (s t : string) :
  (forall s', String.length s' = String.length s ->
              range_pattern s' = range_pattern s)
  /\ exists m,
      Re.rmatch (range_pattern s) t = Ok m
      /\ (m = None \/ exists ds, m = Some [(None, ds)])
      /\ forall ds,
           m = Some [(None, ds)]
           <-> exists rest, t = ds ++ rest
                            /\ String.length ds = String.length s
                            /\ Py.all_digits ds = true.
Proof.
  split.
  { intros s' L. now rewrite !range_pattern_eq, L. }
  rewrite rmatch_range_pattern. eexists. split; [reflexivity|].
  destruct (Re.run (tag_items "" (String.length s)) t None []) as [m|] eqn:E.
  - apply run_tag_inv in E as (ds & rest & Hs & ->). split; [eauto|].
    intros ds'. split.
    + intros H. injection H as <-. destruct Hs as (-> & L & D).
      exists rest. auto.
    + intros (rest' & E & L & D).
      assert (Hs' : tag_shape "" (String.length s) t ds' rest')
        by (unfold tag_shape; auto).
      now destruct (tag_shape_unique _ _ _ _ _ _ _ Hs Hs') as [-> _].
  - split; [auto|]. intros ds. split; [discriminate|].
    intros (rest & Et & L & D).
    assert (Hs : tag_shape "" (String.length s) t ds rest)
      by (unfold tag_shape; auto).
    rewrite (run_tag_shape _ _ _ _ _ Hs) in E. discriminate.
Qed.

(* ================================================================== *)
(** * Further properties of the membership test *)

Lemma bind_raise {A B : Type} (e : exn) (k : A -> result B) :
  bind (Raise e) k = Raise e.
Proof. reflexivity. Qed.

Lemma check_pattern_raise {A : Type} (pattern tag : string) (taken : A)
      (e : exn) :
  parse_pattern pattern = Raise e -> check_pattern pattern tag taken = Raise e.
Proof. intros H. unfold check_pattern. now rewrite H. Qed.

Lemma check_pattern_total {A : Type} (pattern h a b tag : string)
      (taken : A) :
  parse_pattern pattern = Ok (descriptor h a b) ->
  exists r, check_pattern pattern tag taken = Ok r.
Proof.
  intros Hp. rewrite (check_pattern_matched _ _ _ _ Hp).
  destruct (shape_or_not h a tag) as [(k & Hid)|Hn].
  - rewrite (matched_id_shape _ _ _ _ Hp _ _ Hid). cbn [bind]. eauto.
  - rewrite (matched_id_none _ _ _ _ Hp _ Hn). cbn [bind]. eauto.
Qed.

(** X3: whatever the pattern, the tag and the third argument are,
    [check_pattern] either returns a verdict, and then the pattern begins
    with a well-formed range, or it raises the [PatternError] of
    [parse_pattern], and then the pattern does not; it raises nothing
    else. *)
Theorem check_pattern_outcome {A : Type} (pattern tag : string) (taken : A) :
  ((exists r, check_pattern pattern tag taken = Ok r)
   /\ exists h a b rest, pattern_shape pattern h a b rest)
  \/ (check_pattern pattern tag taken
      = Raise (PatternError ("Invalid pattern: " ++ pattern))
      /\ ~ exists h a b rest, pattern_shape pattern h a b rest).
Proof.
  destruct (parse_pattern pattern) as [d|e] eqn:E.
  - left. apply parse_pattern_inv in E as (h & a & b & rest & Hs & ->).
    split; [|eauto].
    apply (check_pattern_total pattern h a b).
    apply (parse_pattern_shape _ _ _ _ _ Hs).
  - right. rewrite (check_pattern_raise _ _ _ _ E).
    rewrite (parse_pattern_raise _ _ E). split; [reflexivity|].
    intros (h & a & b & rest & Hs).
    rewrite (parse_pattern_shape _ _ _ _ _ Hs) in E. discriminate.
Qed.

(** X4: for a pattern that parses, a tag shorter than the prefix plus the
    width of the lower bound, the empty tag among them, is never
    accepted. *)
Theorem check_pattern_short_tag {A : Type} (pattern h a b tag : string)
        (taken : A) :
  parse_pattern pattern = Ok (descriptor h a b) ->
  (String.length tag < String.length h + String.length a)%nat ->
  check_pattern pattern tag taken = Ok false.
Proof.
  intros Hp Hl. rewrite (check_pattern_matched _ _ _ _ Hp).
  rewrite (matched_id_none _ _ _ _ Hp); [reflexivity|].
  intros ds rest (E & L & _). rewrite E, !length_append in Hl. lia.
Qed.

Lemma check_pattern_short_tag_witness :
  check_pattern "host[01:05]" "" (@nil string) = Ok false.
Proof.
  apply (check_pattern_short_tag "host[01:05]" "host" "01" "05" "");
    [vm_compute; reflexivity | simpl; lia].
Defined.

(** A number below [10 ^ width] is rendered as the prefix followed by
    exactly [width] digits. *)
Lemma make_name_plain (h a : string) (cur i : Z) :
  is_number a = true ->
  0 <= cur + i < 10 ^ Z.of_nat (String.length a) ->
  exists ds,
    make_name h a cur i = h ++ ds
    /\ String.length ds = String.length a
    /\ Py.all_digits ds = true
    /\ value ds = cur + i.
Proof.
  intros Ha Hk. rewrite make_name_eq.
  destruct (str_spec _ (proj1 Hk)) as [S1 S2].
  destruct (lpad0_number (String.length a) _ S1) as [P1 P2].
  exists (lpad0 (String.length a) (Py.str (cur + i))).
  split; [reflexivity|]. split.
  - rewrite lpad0_length.
    pose proof (str_length _ _ Hk (is_number_length _ Ha)). lia.
  - unfold is_number in P1. apply andb_true_iff in P1 as [_ P1].
    split; [exact P1 | congruence].
Qed.

Lemma make_name_has_id (h a : string) (cur i : Z) :
  is_number a = true ->
  0 <= cur + i < 10 ^ Z.of_nat (String.length a) ->
  has_id h (String.length a) (make_name h a cur i) (cur + i).
Proof.
  intros Ha Hk. destruct (make_name_plain h a cur i Ha Hk)
    as (ds & E & L & D & V).
  exists ds, "". split; [|exact V].
  unfold tag_shape. rewrite append_nil_r. auto.
Qed.

(** X5: for a pattern that parses, a name rendered as in [fresh_names]
    from an id that fits in the width is read back by the membership test
    with that very id, and is accepted exactly when the id lies between
    the bounds. *)
Theorem check_pattern_make_name {A : Type} (pattern h a b : string)
        (cur i : Z) (taken : A) :
  parse_pattern pattern = Ok (descriptor h a b) ->
  0 <= cur + i < 10 ^ Z.of_nat (String.length a) ->
  matched_id pattern (make_name h a cur i) = Ok (Some (cur + i))
  /\ check_pattern pattern (make_name h a cur i) taken
     = Ok ((value a <=? cur + i)%Z && (cur + i <=? value b)%Z).
Proof.
  intros Hp Hk.
  pose proof (make_name_has_id h a cur i (valid_start _ _ _ _ Hp) Hk) as Hid.
  rewrite (check_pattern_matched _ _ _ _ Hp).
  rewrite (matched_id_shape _ _ _ _ Hp _ _ Hid). auto.
Qed.

Lemma check_pattern_make_name_witness :
  matched_id "host[01:05]" (make_name "host" "01" 3 4) = Ok (Some (3 + 4))
  /\ check_pattern "host[01:05]" (make_name "host" "01" 3 4) (@nil string)
     = Ok ((value "01" <=? 3 + 4)%Z && (3 + 4 <=? value "05")%Z).
Proof.
  apply (check_pattern_make_name "host[01:05]" "host" "01" "05" 3 4);
    [vm_compute; reflexivity | vm_compute; split; [discriminate | reflexivity]].
Defined.

(* ================================================================== *)
(** * Further properties of the allocator *)

Lemma fresh_names_raise (pattern : string) (taken : list string) (n : Z)
      (e : exn) :
  parse_pattern pattern = Raise e -> fresh_names pattern taken n = Raise e.
Proof. intros H. unfold fresh_names. now rewrite H. Qed.

Lemma pow10_pos (w : nat) : 0 < 10 ^ Z.of_nat w.
Proof. apply Z.pow_pos_nonneg; lia. Qed.

(** On a pattern that parses the allocator either fails on the greatest
    taken name, for every count, or renders consecutive ids from a first id
    that the count does not influence. *)
Lemma fresh_names_cases (pattern h a b : string) (taken : list string) :
  parse_pattern pattern = Ok (descriptor h a b) ->
  (exists mx,
      taken <> [] /\ Py.max taken = Ok mx
      /\ (forall ds rest, ~ tag_shape h (String.length a) mx ds rest)
      /\ forall n, fresh_names pattern taken n = Raise AttributeError)
  \/ (exists cur,
         0 <= cur <= 10 ^ Z.of_nat (String.length a)
         /\ forall n, fresh_names pattern taken n
                      = Ok (map (make_name h a cur) (Py.range 0 n))).
Proof.
  intros Hp. destruct taken as [|x xs] eqn:Et.
  - right. exists (value a). split.
    + pose proof (valid_start _ _ _ _ Hp) as Ha. unfold is_number in Ha.
      apply andb_true_iff in Ha as [_ Ha].
      pose proof (value_bound a Ha). lia.
    + intros n. apply (fresh_names_empty _ _ _ _ Hp).
  - rewrite <- Et.
    assert (Hne : taken <> []) by (rewrite Et; discriminate).
    assert (Hmax : exists mx, Py.max taken = Ok mx)
      by (rewrite Et; eexists; reflexivity).
    destruct Hmax as (mx & Hmax).
    destruct (shape_or_not h a mx) as [(k & Hid)|Hn].
    + right. exists (k + 1). split.
      * destruct Hid as (ds & rest & (_ & L & D) & <-).
        pose proof (value_bound ds D) as B. rewrite L in B. lia.
      * intros n. apply (fresh_names_matched _ _ _ _ Hp _ mx); assumption.
    + left. exists mx. repeat split; try assumption.
      intros n. apply (fresh_names_unmatched _ _ _ _ Hp _ mx); assumption.
Qed.

(** X6: the upper bound of the pattern has no influence on the allocator:
    two patterns that parse to the same prefix and the same lower bound as
    written give the same result, error or names, for every taken list and
    every count. *)
Theorem fresh_names_ignores_upper (pattern1 pattern2 h a b1 b2 : string)
        (taken : list string) (n : Z) :
  parse_pattern pattern1 = Ok (descriptor h a b1) ->
  parse_pattern pattern2 = Ok (descriptor h a b2) ->
  fresh_names pattern1 taken n = fresh_names pattern2 taken n.
Proof.
  intros H1 H2. unfold fresh_names. rewrite H1, H2. cbn [bind].
  rewrite !getitem_hostname. cbn [bind].
  rewrite !getitem_range_start. cbn [bind].
  rewrite (int_number a (valid_start _ _ _ _ H1)). cbn [bind].
  rewrite !getitem_range_end. cbn [bind].
  rewrite (int_number b1 (valid_end _ _ _ _ H1)).
  rewrite (int_number b2 (valid_end _ _ _ _ H2)). reflexivity.
Qed.

Lemma fresh_names_ignores_upper_witness :
  fresh_names "srv[01:02]" ["srv01"; "srv02"] 3
  = fresh_names "srv[01:99]" ["srv01"; "srv02"] 3.
Proof.
  apply (fresh_names_ignores_upper "srv[01:02]" "srv[01:99]" "srv" "01"
           "02" "99"); vm_compute; reflexivity.
Defined.

(** X7: on a list of taken names, [fresh_names] raises the
    [PatternError] of [parse_pattern] exactly when the pattern does not
    begin with a well-formed range, whatever is taken; it raises
    [AttributeError] exactly when the pattern is well formed, [taken] is
    not empty and its greatest element does not begin with the prefix
    followed by as many digits as the lower bound is written with; and it
    raises no other error. *)
Theorem fresh_names_errors (pattern : string) (taken : list string) (n : Z) :
  (fresh_names pattern taken n
   = Raise (PatternError ("Invalid pattern: " ++ pattern))
   <-> ~ exists h a b rest, pattern_shape pattern h a b rest)
  /\ (fresh_names pattern taken n = Raise AttributeError
      <-> exists h a b rest mx,
            pattern_shape pattern h a b rest
            /\ taken <> [] /\ Py.max taken = Ok mx
            /\ forall ds rest',
                 ~ tag_shape h (String.length a) mx ds rest')
  /\ forall e,
       fresh_names pattern taken n = Raise e ->
       e = PatternError ("Invalid pattern: " ++ pattern)
       \/ e = AttributeError.
Proof.
  destruct (parse_pattern pattern) as [d|e'] eqn:E.
  - apply parse_pattern_inv in E as (h & a & b & rest & Hs & ->).
    pose proof (parse_pattern_shape _ _ _ _ _ Hs) as Hp.
    destruct (fresh_names_cases _ _ _ _ taken Hp)
      as [(mx & Hne & Hmax & Hn & Hf)|(cur & _ & Hf)]; rewrite Hf.
    + split; [|split].
      * split; [discriminate|]. intros Hno. exfalso. apply Hno. eauto.
      * split; [|reflexivity]. intros _. exists h, a, b, rest, mx. auto.
      * intros e He. injection He as <-. now right.
    + split; [|split].
      * split; [discriminate|]. intros Hno. exfalso. apply Hno. eauto.
      * split; [discriminate|].
        intros (h' & a' & b' & rest' & mx & Hs' & Hne & Hmax & Hn).
        pose proof (parse_pattern_shape _ _ _ _ _ Hs') as Hp'.
        pose proof (fresh_names_unmatched _ _ _ _ Hp' taken mx n
                      Hne Hmax Hn) as Hu.
        rewrite Hf in Hu. discriminate.
      * intros e He. discriminate.
  - rewrite (fresh_names_raise _ _ _ _ E), (parse_pattern_raise _ _ E).
    assert (Hno : ~ exists h a b rest, pattern_shape pattern h a b rest).
    { intros (h & a & b & rest & Hs).
      rewrite (parse_pattern_shape _ _ _ _ _ Hs) in E. discriminate. }
    split; [|split].
    + split; [intros _; exact Hno | reflexivity].
    + split; [discriminate|].
      intros (h & a & b & rest & mx & Hs & _). exfalso. apply Hno. eauto.
    + intros e He. injection He as <-. now left.
Qed.

(** X8: when [fresh_names] returns, it returns as many names as asked
    for, none when the count is zero or negative, rendered from consecutive
    ids whose first is at most ten to the power of the width, whatever
    names are taken. *)
Theorem fresh_names_start_bounded (pattern h a b : string)
        (taken names : list string) (n : Z) :
  parse_pattern pattern = Ok (descriptor h a b) ->
  fresh_names pattern taken n = Ok names ->
  List.length names = Z.to_nat n
  /\ exists cur,
       0 <= cur <= 10 ^ Z.of_nat (String.length a)
       /\ names = map (make_name h a cur) (Py.range 0 n).
Proof.
  intros Hp Hr.
  destruct (fresh_names_cases _ _ _ _ taken Hp)
    as [(mx & _ & _ & _ & Hf)|(cur & Hc & Hf)].
  - rewrite Hf in Hr. discriminate.
  - rewrite Hf in Hr. injection Hr as <-. split.
    + now rewrite length_map, range_length.
    + exists cur. auto.
Qed.

Lemma fresh_names_start_bounded_witness :
  List.length ["web10"; "web11"] = Z.to_nat 2
  /\ exists cur,
       0 <= cur <= 10 ^ Z.of_nat (String.length "1")
       /\ ["web10"; "web11"] = map (make_name "web" "1" cur) (Py.range 0 2).
Proof.
  apply (fresh_names_start_bounded "web[1:9]" "web" "1" "9"
           ["web9"; "web10"; "web25"]);
    vm_compute; reflexivity.
Defined.

Lemma range_extend (n n' : Z) :
  n <= n' -> exists more, Py.range 0 n' = (Py.range 0 n ++ more)%list.
Proof.
  intros H. unfold Py.range.
  replace (Z.to_nat (n' - 0))
    with (Z.to_nat (n - 0) + (Z.to_nat (n' - 0) - Z.to_nat (n - 0)))%nat
    by lia.
  rewrite seq_app, map_app. eauto.
Qed.

(** X9: asking for more names extends the sequence: the names returned for
    a count are the first names returned for any greater count, with the
    same pattern and taken list. *)
Theorem fresh_names_extends (pattern : string) (taken names : list string)
        (n n' : Z) :
  fresh_names pattern taken n = Ok names ->
  n <= n' ->
  exists more, fresh_names pattern taken n' = Ok (names ++ more)%list.
Proof.
  intros Hr Hn. destruct (parse_pattern pattern) as [d|e] eqn:E.
  - apply parse_pattern_inv in E as (h & a & b & rest & Hs & ->).
    pose proof (parse_pattern_shape _ _ _ _ _ Hs) as Hp.
    destruct (fresh_names_cases _ _ _ _ taken Hp)
      as [(mx & _ & _ & _ & Hf)|(cur & _ & Hf)].
    + rewrite Hf in Hr. discriminate.
    + rewrite Hf in Hr. injection Hr as <-. rewrite Hf.
      destruct (range_extend n n' Hn) as (more & ->).
      rewrite map_app. eauto.
  - rewrite (fresh_names_raise _ _ _ _ E) in Hr. discriminate.
Qed.

Lemma fresh_names_extends_witness :
  exists more,
    fresh_names "host[01:05]" ["host01"; "host02"] 4
    = Ok (["host03"; "host04"] ++ more)%list.
Proof.
  apply (fresh_names_extends "host[01:05]" ["host01"; "host02"]
           ["host03"; "host04"] 2 4); [vm_compute; reflexivity | lia].
Defined.

(** X10: for a pattern that parses and conforming taken names, when the
    last id to emit is at most the upper bound and still fits in the
    width, every name [fresh_names] returns is accepted by
    [check_pattern]: the names it hands out conform. *)
Theorem fresh_names_accepted {A : Type} (pattern h a b : string)
        (taken : list string) (n : Z) (seen : A) :
  parse_pattern pattern = Ok (descriptor h a b) ->
  forallb (conforms h (String.length a) (value a) (value b)) taken = true ->
  0 <= n ->
  start_id h (value a) taken + n - 1 <= value b ->
  start_id h (value a) taken + n <= 10 ^ Z.of_nat (String.length a) ->
  exists names,
    fresh_names pattern taken n = Ok names
    /\ forall name, In name names ->
                    check_pattern pattern name seen = Ok true.
Proof.
  intros Hp Hc Hn Hhi Hw.
  pose proof (conforming_forall _ _ _ _ _ Hc) as Hc'.
  destruct (fresh_names_conforming _ _ _ _ Hp taken n Hc') as (E & Hs & Hlt).
  assert (Hlo : value a <= start_id h (value a) taken).
  { destruct taken as [|x xs]; [simpl; lia|].
    specialize (Hlt x (or_introl eq_refl)).
    pose proof (Hc' x (or_introl eq_refl)) as Hx.
    apply conforms_inv in Hx as (_ & _ & _ & Hx). lia. }
  eexists. split; [exact E|]. intros name Hin.
  apply names_in in Hin as (i & Hi & ->).
  rewrite (check_pattern_matched _ _ _ _ Hp).
  rewrite (matched_id_shape _ _ _ _ Hp _
             (start_id h (value a) taken + i)).
  - cbn [bind]. f_equal. apply andb_true_iff. split; apply Z.leb_le; lia.
  - apply make_name_has_id; [apply (valid_start _ _ _ _ Hp) | lia].
Qed.

Lemma fresh_names_accepted_witness :
  exists names,
    fresh_names "host[01:05]" ["host01"; "host02"] 3 = Ok names
    /\ forall name, In name names ->
                    check_pattern "host[01:05]" name (@nil string) = Ok true.
Proof.
  apply (fresh_names_accepted "host[01:05]" "host" "01" "05"
           ["host01"; "host02"] 3);
    [vm_compute; reflexivity | vm_compute; reflexivity | lia
    | vm_compute; discriminate | vm_compute; discriminate].
Defined.

(* ================================================================== *)
(** * Allocating in several calls *)

Lemma plain_inv (h : string) (w : nat) (t : string) :
  plain_name h w t = true ->
  t = h ++ suffix_of h t /\ String.length (suffix_of h t) = w
  /\ Py.all_digits (suffix_of h t) = true.
Proof.
  unfold plain_name. rewrite !andb_true_iff. intros ((E & L) & D).
  apply String.eqb_eq in E. apply Nat.eqb_eq in L. auto.
Qed.

Lemma plain_has_id (h : string) (w : nat) (t : string) :
  plain_name h w t = true -> has_id h w t (value (suffix_of h t)).
Proof.
  intros H. apply plain_inv in H as (E & L & D).
  exists (suffix_of h t), "". split; [|reflexivity].
  unfold tag_shape. rewrite append_nil_r. auto.
Qed.

Lemma make_name_plain_name (h a : string) (cur i : Z) :
  is_number a = true ->
  0 <= cur + i < 10 ^ Z.of_nat (String.length a) ->
  plain_name h (String.length a) (make_name h a cur i) = true
  /\ value (suffix_of h (make_name h a cur i)) = cur + i.
Proof.
  intros Ha Hk.
  destruct (make_name_plain h a cur i Ha Hk) as (ds & -> & L & D & V).
  unfold plain_name. rewrite suffix_of_append.
  now rewrite String.eqb_refl, L, Nat.eqb_refl, D.
Qed.

Lemma make_name_sum (h a : string) (cur i cur' i' : Z) :
  cur + i = cur' + i' -> make_name h a cur i = make_name h a cur' i'.
Proof. intros E. unfold make_name. now rewrite E. Qed.

Lemma fold_max_in (ks : list Z) :
  forall k, fold_left Z.max ks k = k \/ In (fold_left Z.max ks k) ks.
Proof.
  induction ks as [|y ks IH]; intros k; simpl; [auto|].
  destruct (IH (Z.max k y)) as [E|Hin]; [|auto].
  rewrite E. destruct (Z.max_spec k y) as [[_ ->]|[_ ->]]; auto.
Qed.

Lemma max_list_in (ks : list Z) : ks <> [] -> In (max_list ks) ks.
Proof.
  destruct ks as [|k ks]; [congruence|]. intros _. cbn [max_list].
  destruct (fold_max_in ks k) as [->|H]; [now left | now right].
Qed.

Lemma max_list_unique (ks : list Z) (m : Z) :
  In m ks -> (forall x, In x ks -> x <= m) -> max_list ks = m.
Proof.
  intros Hin Hle.
  assert (Hne : ks <> []) by (destruct ks; [destruct Hin | discriminate]).
  pose proof (max_list_ge ks m Hin).
  pose proof (Hle _ (max_list_in ks Hne)). lia.
Qed.

Lemma range_in (n i : Z) : In i (Py.range 0 n) <-> 0 <= i < n.
Proof.
  unfold Py.range. rewrite in_map_iff. split.
  - intros (k & <- & Hk). apply in_seq in Hk. lia.
  - intros Hi. exists (Z.to_nat i). split; [lia|]. apply in_seq. lia.
Qed.

Lemma map_seq_from (b : nat) :
  forall (g : nat -> Z) a,
    map g (seq a b) = map (fun k => g (a + k)%nat) (seq 0 b).
Proof.
  induction b as [|b IH]; intros g a; [reflexivity|].
  cbn [seq map]. rewrite Nat.add_0_r. f_equal.
  rewrite (IH g (S a)), (IH (fun k => g (a + k)%nat) 1%nat).
  apply map_ext. intros k. f_equal. lia.
Qed.

Lemma range_split (n m : Z) :
  0 <= n -> 0 <= m ->
  Py.range 0 (n + m) = (Py.range 0 n ++ map (Z.add n) (Py.range 0 m))%list.
Proof.
  intros Hn Hm. unfold Py.range.
  replace (Z.to_nat (n + m - 0)) with (Z.to_nat (n - 0) + Z.to_nat (m - 0))%nat
    by lia.
  rewrite seq_app, map_app. f_equal. rewrite map_map.
  rewrite map_seq_from. apply map_ext. intros k. lia.
Qed.

(** With plain names taken, whatever their ids, the allocation starts
    right after the greatest of them. *)
Lemma fresh_names_plain (pattern h a b : string) (taken : list string)
      (n : Z) :
  parse_pattern pattern = Ok (descriptor h a b) ->
  (forall t, In t taken -> plain_name h (String.length a) t = true) ->
  fresh_names pattern taken n
  = Ok (map (make_name h a (start_id h (value a) taken)) (Py.range 0 n))
  /\ 0 <= start_id h (value a) taken <= 10 ^ Z.of_nat (String.length a)
  /\ forall t, In t taken ->
               value (suffix_of h t) < start_id h (value a) taken.
Proof.
  intros Hp Hc.
  pose proof (valid_start _ _ _ _ Hp) as Ha. pose proof Ha as Ha'.
  unfold is_number in Ha'. apply andb_true_iff in Ha' as [_ Ha'].
  destruct taken as [|x xs] eqn:Et.
  - rewrite (fresh_names_empty _ _ _ _ Hp). cbn [start_id].
    split; [reflexivity|]. split; [|intros t []].
    pose proof (value_bound a Ha'). lia.
  - rewrite <- Et in *.
    assert (Hne : taken <> []) by (rewrite Et; discriminate).
    destruct (max_has_max_id h (String.length a)
                (fun t => value (suffix_of h t)) taken Hne)
      as (mx & Hmax & Hid).
    { intros t Ht. apply plain_has_id, Hc, Ht. }
    rewrite (fresh_names_matched _ _ _ _ Hp taken mx _ n Hne Hmax Hid).
    assert (Es : start_id h (value a) taken
                 = max_list (taken_ids h taken) + 1)
      by (rewrite Et; reflexivity).
    rewrite Es. unfold taken_ids. split; [reflexivity|].
    split.
    + destruct Hid as (ds & rest & (_ & L & D) & <-).
      pose proof (value_bound ds D) as B. rewrite L in B. lia.
    + intros t Ht.
      assert (value (suffix_of h t)
              <= max_list (map (fun t => value (suffix_of h t)) taken));
        [|lia].
      apply max_list_ge, in_map_iff. eauto.
Qed.

(** X11: as long as the ids fit in the width, allocating in two calls, the
    names of the first call added to the taken ones for the second, gives
    the same names as allocating them all in one call. *)
Theorem fresh_names_in_batches (pattern h a b : string)
        (taken : list string) (n m : Z) :
  parse_pattern pattern = Ok (descriptor h a b) ->
  forallb (plain_name h (String.length a)) taken = true ->
  0 <= n ->
  0 <= m ->
  start_id h (value a) taken + n <= 10 ^ Z.of_nat (String.length a) ->
  exists first second,
    fresh_names pattern taken n = Ok first
    /\ fresh_names pattern (taken ++ first) m = Ok second
    /\ fresh_names pattern taken (n + m) = Ok (first ++ second)%list.
Proof.
  intros Hp Hc Hn Hm Hw.
  assert (Hc' : forall t, In t taken -> plain_name h (String.length a) t = true)
    by (now apply forallb_forall).
  pose proof (valid_start _ _ _ _ Hp) as Ha.
  set (start := start_id h (value a) taken) in *.
  set (first := map (make_name h a start) (Py.range 0 n)).
  destruct (fresh_names_plain _ _ _ _ taken n Hp Hc') as (E1 & Hs & Hlt).
  fold start in E1, Hs, Hlt. fold first in E1.
  assert (Hfirst : forall t, In t first ->
            exists i, 0 <= i < n /\ t = make_name h a start i).
  { intros t Ht. now apply names_in in Ht. }
  assert (Hall : forall t, In t (taken ++ first) ->
            plain_name h (String.length a) t = true).
  { intros t Ht. apply in_app_or in Ht as [Ht|Ht]; [auto|].
    apply Hfirst in Ht as (i & Hi & ->).
    apply make_name_plain_name; [exact Ha | lia]. }
  destruct (fresh_names_plain _ _ _ _ (taken ++ first) m Hp Hall)
    as (E2 & _ & _).
  assert (Es : start_id h (value a) (taken ++ first) = start + n).
  { destruct (Z.eq_dec n 0) as [->|Hz].
    - unfold first. cbn [Py.range Z.sub Z.to_nat seq map].
      rewrite app_nil_r. fold start. lia.
    - assert (Hl : In (make_name h a start (n - 1)) first).
      { apply in_map. apply (proj2 (range_in n (n - 1))). lia. }
      assert (Eid : start_id h (value a) (taken ++ first)
                    = max_list (taken_ids h (taken ++ first)) + 1).
      { destruct (taken ++ first)%list eqn:Ex; [|reflexivity].
        apply app_eq_nil in Ex as [_ Ex]. rewrite Ex in Hl. destruct Hl. }
      rewrite Eid.
      replace (start + n) with (start + (n - 1) + 1) by lia. f_equal.
      apply max_list_unique.
      + unfold taken_ids. apply in_map_iff.
        exists (make_name h a start (n - 1)). split.
        * apply make_name_plain_name; [exact Ha | lia].
        * apply in_or_app. now right.
      + unfold taken_ids. intros x Hx.
        apply in_map_iff in Hx as (t & <- & Ht).
        apply in_app_or in Ht as [Ht|Ht].
        * specialize (Hlt t Ht). lia.
        * apply Hfirst in Ht as (i & Hi & ->).
          destruct (make_name_plain_name h a start i Ha) as [_ ->]; lia. }
  rewrite Es in E2.
  destruct (fresh_names_plain _ _ _ _ taken (n + m) Hp Hc') as (E3 & _ & _).
  fold start in E3.
  exists first, (map (make_name h a (start + n)) (Py.range 0 m)).
  split; [exact E1|]. split; [exact E2|].
  rewrite E3, range_split, map_app, map_map by assumption.
  f_equal. f_equal. apply map_ext. intros j. apply make_name_sum. lia.
Qed.

Lemma fresh_names_in_batches_witness :
  exists first second,
    fresh_names "host[01:05]" ["host01"; "host02"] 2 = Ok first
    /\ fresh_names "host[01:05]" (["host01"; "host02"] ++ first) 3
       = Ok second
    /\ fresh_names "host[01:05]" ["host01"; "host02"] (2 + 3)
       = Ok (first ++ second)%list.
Proof.
  apply (fresh_names_in_batches "host[01:05]" "host" "01" "05"
           ["host01"; "host02"] 2 3);
    [vm_compute; reflexivity | vm_compute; reflexivity | lia | lia
    | vm_compute; discriminate].
Defined.

Lemma substring_head (h ds rest : string) :
  substring (String.length h) (String.length ds) (h ++ ds ++ rest) = ds.
Proof.
  induction h as [|c h IH]; [|exact IH]. cbn [String.length append].
  induction ds as [|d ds IHd]; cbn [String.length append substring].
  - now destruct rest.
  - now rewrite IHd.
Qed.

Lemma digits_take (w : nat) :
  forall s, Py.all_digits s = true -> (w <= String.length s)%nat ->
            exists ds rest, s = ds ++ rest /\ String.length ds = w
                            /\ Py.all_digits ds = true.
Proof.
  induction w as [|w IH]; intros s D L.
  - exists "", s. auto.
  - destruct s as [|c s]; [simpl in L; lia|].
    cbn [Py.all_digits] in D. apply andb_true_iff in D as [Dc D].
    destruct (IH s D) as (ds & rest & -> & Lw & Dd); [simpl in L; lia|].
    exists (String c ds), rest. cbn [append String.length Py.all_digits].
    now rewrite Lw, Dc, Dd.
Qed.

Lemma has_leading_id (h t ds rest : string) (w : nat) :
  tag_shape h w t ds rest -> leading_id h w t = value ds.
Proof.
  intros (-> & <- & _). unfold leading_id. now rewrite substring_head.
Qed.

Lemma plain_leading_id (h : string) (w : nat) (t : string) :
  plain_name h w t = true ->
  has_id h w t (leading_id h w t)
  /\ leading_id h w t = value (suffix_of h t).
Proof.
  intros H. destruct (plain_has_id _ _ _ H) as (ds & rest & Hs & V).
  rewrite (has_leading_id _ _ _ _ _ Hs). split; [|exact V].
  exists ds, rest. auto.
Qed.

(** Every rendered name begins with the prefix and at least [width]
    digits, so the pattern built for tags reads an id from it. *)
Lemma make_name_leading_id (h a : string) (cur i : Z) :
  0 <= cur + i ->
  has_id h (String.length a) (make_name h a cur i)
         (leading_id h (String.length a) (make_name h a cur i)).
Proof.
  intros Hk. rewrite make_name_eq.
  destruct (str_spec _ Hk) as [S1 _].
  destruct (lpad0_number (String.length a) _ S1) as [P1 _].
  unfold is_number in P1. apply andb_true_iff in P1 as [_ P1].
  destruct (digits_take (String.length a) _ P1) as (ds & rest & E & L & D).
  { rewrite lpad0_length. lia. }
  rewrite E.
  assert (Hs : tag_shape h (String.length a) (h ++ ds ++ rest) ds rest)
    by (unfold tag_shape; auto).
  rewrite (has_leading_id _ _ _ _ _ Hs). exists ds, rest. auto.
Qed.

Lemma has_id_bound (h t : string) (w : nat) (k : Z) :
  has_id h w t k -> 0 <= k < 10 ^ Z.of_nat w.
Proof.
  intros (ds & rest & (_ & L & D) & <-).
  pose proof (value_bound ds D) as B. now rewrite L in B.
Qed.

(** X12: once a call has handed out an id that no longer fits in the
    width, a later call that is given the taken names together with the
    names already handed out returns one of those names again. *)
Theorem fresh_names_reissue (pattern h a b : string)
        (taken : list string) (n m : Z) :
  parse_pattern pattern = Ok (descriptor h a b) ->
  forallb (plain_name h (String.length a)) taken = true ->
  10 ^ Z.of_nat (String.length a) <= start_id h (value a) taken + n - 1 ->
  1 <= m ->
  exists names names' name,
    fresh_names pattern taken n = Ok names
    /\ fresh_names pattern (taken ++ names) m = Ok names'
    /\ In name names /\ In name names'.
Proof.
  intros Hp Hc Hover Hm.
  assert (Hc' : forall t, In t taken -> plain_name h (String.length a) t = true)
    by (now apply forallb_forall).
  pose proof (valid_start _ _ _ _ Hp) as Ha.
  set (w := String.length a) in *.
  set (start := start_id h (value a) taken) in *.
  set (names := map (make_name h a start) (Py.range 0 n)).
  destruct (fresh_names_plain _ _ _ _ taken n Hp Hc') as (E1 & Hs & Hlt).
  fold w start in E1, Hs, Hlt. fold names in E1.
  assert (Hnames : forall t, In t names ->
            exists i, 0 <= i < n /\ t = make_name h a start i).
  { intros t Ht. now apply names_in in Ht. }
  (* every name now taken carries a leading id *)
  assert (Hids : forall t, In t (taken ++ names) ->
            has_id h w t (leading_id h w t)).
  { intros t Ht. apply in_app_or in Ht as [Ht|Ht].
    - apply plain_leading_id, Hc', Ht.
    - apply Hnames in Ht as (i & Hi & ->).
      apply make_name_leading_id. lia. }
  assert (Hne : (taken ++ names)%list <> []).
  { assert (In (make_name h a start 0) names)
      by (apply in_map; apply (proj2 (range_in n 0)); lia).
    intros E. apply app_eq_nil in E as [_ E]. rewrite E in H. destruct H. }
  destruct (max_has_max_id h w (leading_id h w) _ Hne Hids)
    as (mx & Hmax & Hid).
  (* the greatest leading id is the greatest id of the width *)
  assert (Em : max_list (map (leading_id h w) (taken ++ names))
               = 10 ^ Z.of_nat w - 1).
  { apply max_list_unique.
    - apply in_map_iff. destruct (Z.eq_dec start (10 ^ Z.of_nat w)) as [Es|Es].
      + (* the width was exhausted by the taken names already *)
        assert (Et : taken <> []).
        { intros ->. unfold start in Es. cbn [start_id] in Es.
          unfold is_number in Ha. apply andb_true_iff in Ha as [_ Ha].
          pose proof (value_bound a Ha). fold w in H. lia. }
        assert (Eid : start = max_list (taken_ids h taken) + 1)
          by (unfold start; destruct taken; [congruence | reflexivity]).
        assert (Hin : In (max_list (taken_ids h taken)) (taken_ids h taken)).
        { apply max_list_in. unfold taken_ids.
          destruct taken; [congruence | discriminate]. }
        unfold taken_ids in Hin at 2.
        apply in_map_iff in Hin as (t & Ev & Ht).
        exists t. split; [|apply in_or_app; now left].
        destruct (plain_leading_id _ _ _ (Hc' t Ht)) as [_ ->]. lia.
      + exists (make_name h a start (10 ^ Z.of_nat w - 1 - start)). split.
        * destruct (make_name_plain_name h a start
                      (10 ^ Z.of_nat w - 1 - start) Ha) as [Hpl Hv];
            [fold w; lia|].
          destruct (plain_leading_id _ _ _ Hpl) as [_ El]. fold w in El.
          rewrite El, Hv. lia.
        * apply in_or_app. right. apply in_map.
          apply (proj2 (range_in n _)). lia.
    - intros x Hx. apply in_map_iff in Hx as (t & <- & Ht).
      pose proof (has_id_bound _ _ _ _ (Hids t Ht)). lia. }
  rewrite Em in Hid.
  pose proof (fresh_names_matched _ _ _ _ Hp (taken ++ names) mx _ m
                Hne Hmax Hid) as E2.
  exists names, (map (make_name h a (10 ^ Z.of_nat w - 1 + 1)) (Py.range 0 m)),
    (make_name h a (10 ^ Z.of_nat w) 0).
  split; [exact E1|]. split; [exact E2|]. split.
  - rewrite (make_name_sum h a _ 0 start (10 ^ Z.of_nat w - start)) by lia.
    apply in_map. apply (proj2 (range_in n _)). lia.
  - rewrite (make_name_sum h a _ 0 (10 ^ Z.of_nat w - 1 + 1) 0) by lia.
    apply in_map. apply (proj2 (range_in m 0)). lia.
Qed.

Lemma fresh_names_reissue_witness :
  exists names names' name,
    fresh_names "web[1:9]" ["web8"] 2 = Ok names
    /\ fresh_names "web[1:9]" (["web8"] ++ names) 1 = Ok names'
    /\ In name names /\ In name names'.
Proof.
  apply (fresh_names_reissue "web[1:9]" "web" "1" "9" ["web8"] 2 1);
    [vm_compute; reflexivity | vm_compute; reflexivity
    | vm_compute; discriminate | lia].
Defined.

(* ================================================================== *)
(** * The taken names as a set *)

Lemma compare_le_trans (x : string) :
  forall y z, (x ?= y)%string <> Gt -> (y ?= z)%string <> Gt ->
              (x ?= z)%string <> Gt.
Proof.
  induction x as [|c x IH]; intros [|d y] [|e z]; cbn [String.compare];
    try congruence.
  unfold Ascii.compare.
  destruct (N.compare_spec (N_of_ascii c) (N_of_ascii d)) as [E1|L1|G1];
    destruct (N.compare_spec (N_of_ascii d) (N_of_ascii e)) as [E2|L2|G2];
    destruct (N.compare_spec (N_of_ascii c) (N_of_ascii e)) as [E3|L3|G3];
    try congruence; try lia.
  apply IH.
Qed.

Lemma compare_le_antisym (x y : string) :
  (x ?= y)%string <> Gt -> (y ?= x)%string <> Gt -> x = y.
Proof.
  intros H1 H2. apply String.compare_eq_iff.
  rewrite String.compare_antisym in H2.
  destruct (x ?= y)%string; [reflexivity | | congruence].
  now contradiction H2.
Qed.

Lemma compare_le_refl (x : string) : (x ?= x)%string <> Gt.
Proof.
  induction x as [|c x IH]; cbn [String.compare]; [discriminate|].
  unfold Ascii.compare. now rewrite N.compare_refl.
Qed.

Lemma max_fold_spec (xs : list string) :
  forall m,
    let r := fold_left (fun m y => if (m <? y)%string then y else m) xs m in
    (r = m \/ In r xs)
    /\ (m ?= r)%string <> Gt
    /\ forall x, In x xs -> (x ?= r)%string <> Gt.
Proof.
  induction xs as [|y xs IH]; intros m; cbn [fold_left].
  - split; [now left|]. split; [apply compare_le_refl | intros x []].
  - set (m' := if (m <? y)%string then y else m).
    destruct (IH m') as (Hin & Hm' & Hall).
    assert (Hm : (m ?= m')%string <> Gt /\ (y ?= m')%string <> Gt).
    { unfold m', String.ltb. destruct (m ?= y)%string eqn:E.
      - split; [apply compare_le_refl|].
        rewrite String.compare_antisym, E. discriminate.
      - split; [congruence | apply compare_le_refl].
      - split; [apply compare_le_refl|].
        rewrite String.compare_antisym, E. discriminate. }
    destruct Hm as [Hm Hy]. split; [|split].
    + destruct Hin as [->|Hin]; [|right; now right].
      unfold m'. destruct (m <? y)%string; [right; now left | now left].
    + eapply compare_le_trans; eassumption.
    + intros x [<-|Hx]; [|auto]. eapply compare_le_trans; eassumption.
Qed.

(** [max] returns an element that no element exceeds in byte order. *)
Lemma max_spec (xs : list string) (m : string) :
  Py.max xs = Ok m ->
  In m xs /\ forall x, In x xs -> (x ?= m)%string <> Gt.
Proof.
  destruct xs as [|x xs]; [discriminate|]. cbn [Py.max]. intros H.
  injection H as <-. destruct (max_fold_spec xs x) as (Hin & Hx & Hall).
  split.
  - destruct Hin as [->|Hin]; [now left | now right].
  - intros y [<-|Hy]; auto.
Qed.

Lemma max_same_elements (xs ys : list string) :
  (forall t, In t xs <-> In t ys) -> Py.max xs = Py.max ys.
Proof.
  intros H. destruct xs as [|x xs], ys as [|y ys]; [reflexivity | | |].
  - destruct (proj2 (H y) (or_introl eq_refl)).
  - destruct (proj1 (H x) (or_introl eq_refl)).
  - destruct (Py.max (x :: xs)) as [m|e] eqn:E1; [|discriminate].
    destruct (Py.max (y :: ys)) as [m'|e] eqn:E2; [|discriminate].
    apply max_spec in E1 as [I1 A1]. apply max_spec in E2 as [I2 A2].
    f_equal. apply compare_le_antisym.
    + apply A2, H, I1.
    + apply A1, H, I2.
Qed.

Lemma bind_ext {A B : Type} (m : result A) (k k' : A -> result B) :
  (forall x, k x = k' x) -> bind m k = bind m k'.
Proof. intros H. destruct m; [apply H | reflexivity]. Qed.

(** X13: the allocator depends on the taken names as a set only: two
    lists with the same elements, in any order and with any repetitions,
    give the same result, error or names. *)
Theorem fresh_names_set_only (pattern : string) (taken taken' : list string)
        (n : Z) :
  (forall t, In t taken <-> In t taken') ->
  fresh_names pattern taken n = fresh_names pattern taken' n.
Proof.
  intros H. unfold fresh_names.
  do 6 (apply bind_ext; intros ?).
  rewrite (max_same_elements _ _ H).
  replace (0 <? Py.len taken')%Z with (0 <? Py.len taken)%Z; [reflexivity|].
  unfold Py.len. destruct taken as [|t1 ts1], taken' as [|t2 ts2];
    try reflexivity.
  - destruct (proj2 (H t2) (or_introl eq_refl)).
  - destruct (proj1 (H t1) (or_introl eq_refl)).
Qed.

Lemma fresh_names_set_only_witness :
  fresh_names "host[01:05]" ["host01"; "host03"; "host02"] 2
  = fresh_names "host[01:05]" ["host03"; "host02"; "host03"; "host01"] 2.
Proof.
  apply (fresh_names_set_only "host[01:05]" ["host01"; "host03"; "host02"]
           ["host03"; "host02"; "host03"; "host01"] 2).
  intros t. simpl. tauto.
Defined.

(* ================================================================== *)
(** * The classification loop *)

Lemma contains_getitem (d : Py.dict) (key : string) :
  (contains d key = true /\ exists v, Py.getitem d key = Ok v)
  \/ (contains d key = false /\ Py.getitem d key = Raise (KeyError key)).
Proof.
  induction d as [|[k v] d IH]; [right; auto|].
  unfold contains in *. cbn [existsb Py.getitem fst].
  destruct (k =? key)%string; [left; eauto|]. exact IH.
Qed.

Lemma classify_loop_valid {Instance : Type} (tags : Instance -> Py.dict)
      (pattern h a b tag : string) (instances : list Instance) :
  parse_pattern pattern = Ok (descriptor h a b) ->
  forall valid invalid,
    classify_loop tags pattern tag instances valid invalid
    = Ok ((valid
             ++ map (fun i => Item i (tag_value tags tag i))
                    (filter (accepted tags pattern tag) instances))%list,
          (invalid
             ++ map (fun i => Item i (tag_value tags tag i))
                    (filter (fun i => negb (accepted tags pattern tag i))
                            instances))%list).
Proof.
  intros Hp. induction instances as [|i rest IH]; intros valid invalid.
  - cbn. now rewrite !app_nil_r.
  - cbn [classify_loop filter].
    destruct (contains_getitem (tags i) tag) as [(Hc & v & Hv)|(Hc & Hv)].
    + destruct (check_pattern_total pattern h a b v valid Hp) as (r & Hr).
      assert (Ev : tag_value tags tag i = Some v)
        by (unfold tag_value; now rewrite Hv).
      assert (Ea : accepted tags pattern tag i = r).
      { unfold accepted. rewrite Hv.
        change (check_pattern pattern v (@nil string))
          with (check_pattern pattern v valid). now rewrite Hr. }
      rewrite Hc, Hv, Ea. cbn [bind]. rewrite Hr. cbn [bind].
      destruct r; cbn [negb map]; rewrite IH, Ev, <- app_assoc; reflexivity.
    + assert (Ev : tag_value tags tag i = None)
        by (unfold tag_value; now rewrite Hv).
      assert (Ea : accepted tags pattern tag i = false)
        by (unfold accepted; now rewrite Hv).
      rewrite Hc, Ea. cbn [negb map].
      rewrite IH, Ev, <- app_assoc. reflexivity.
Qed.

(** X14: for a pattern that parses, the loop of [main] never fails and is
    a stable partition: the valid list holds, in their order, the instances
    whose tag value [check_pattern] accepts, the invalid list holds all the
    others in their order, and each entry records the tag's value, [None]
    when the instance has no such tag. *)
Theorem classify_partition {Instance : Type} (tags : Instance -> Py.dict)
        (pattern h a b tag : string) (instances : list Instance) :
  parse_pattern pattern = Ok (descriptor h a b) ->
  classify tags pattern tag instances
  = Ok (map (fun i => Item i (tag_value tags tag i))
            (filter (accepted tags pattern tag) instances),
        map (fun i => Item i (tag_value tags tag i))
            (filter (fun i => negb (accepted tags pattern tag i)) instances)).
Proof.
  intros Hp. unfold classify.
  now rewrite (classify_loop_valid tags pattern h a b tag instances Hp).
Qed.

Lemma classify_partition_witness :
  classify (fun i : Py.dict => i) "host[01:05]" "Name"
    [[("Name", "host02")]; [("Role", "db")]; [("Name", "host9")]]
  = Ok (map (fun i => Item i (tag_value (fun i => i) "Name" i))
            (filter (accepted (fun i => i) "host[01:05]" "Name")
               [[("Name", "host02")]; [("Role", "db")];
                [("Name", "host9")]]),
        map (fun i => Item i (tag_value (fun i => i) "Name" i))
            (filter (fun i => negb (accepted (fun i => i) "host[01:05]"
                                      "Name" i))
               [[("Name", "host02")]; [("Role", "db")];
                [("Name", "host9")]])).
Proof.
  apply (classify_partition (fun i : Py.dict => i) "host[01:05]" "host"
           "01" "05" "Name").
  vm_compute; reflexivity.
Defined.

Lemma classify_loop_untagged {Instance : Type} (tags : Instance -> Py.dict)
      (pattern tag : string) (instances : list Instance) :
  existsb (fun i => contains (tags i) tag) instances = false ->
  forall valid invalid,
    classify_loop tags pattern tag instances valid invalid
    = Ok (valid, (invalid ++ map (fun i => Item i None) instances)%list).
Proof.
  induction instances as [|i rest IH]; intros He valid invalid.
  - cbn. now rewrite app_nil_r.
  - cbn [existsb] in He. apply orb_false_iff in He as [Hi He].
    cbn [classify_loop map]. rewrite Hi, (IH He), <- app_assoc. reflexivity.
Qed.

Lemma classify_loop_raise {Instance : Type} (tags : Instance -> Py.dict)
      (pattern tag : string) (e : exn) (instances : list Instance) :
  parse_pattern pattern = Raise e ->
  existsb (fun i => contains (tags i) tag) instances = true ->
  forall valid invalid,
    classify_loop tags pattern tag instances valid invalid = Raise e.
Proof.
  intros Hp. induction instances as [|i rest IH]; intros He valid invalid.
  - discriminate.
  - cbn [existsb] in He. cbn [classify_loop].
    destruct (contains_getitem (tags i) tag) as [(Hc & v & Hv)|(Hc & _)].
    + rewrite Hc, Hv. cbn [bind].
      now rewrite (check_pattern_raise _ _ _ _ Hp).
    + rewrite Hc in *. now apply IH.
Qed.

(** X15: the loop of [main] notices an ill-formed pattern only through
    [check_pattern]: it raises the [PatternError] when some instance carries
    the tag, and when none does it returns normally, with every instance in
    the invalid list and the pattern never looked at. *)
Theorem classify_invalid_pattern {Instance : Type}
        (tags : Instance -> Py.dict) (pattern tag : string) (e : exn)
        (instances : list Instance) :
  parse_pattern pattern = Raise e ->
  classify tags pattern tag instances
  = if existsb (fun i => contains (tags i) tag) instances
    then Raise e
    else Ok ([], map (fun i => Item i None) instances).
Proof.
  intros Hp. unfold classify.
  destruct (existsb _ instances) eqn:He.
  - now apply classify_loop_raise.
  - now rewrite classify_loop_untagged.
Qed.

Lemma classify_invalid_pattern_witness :
  classify (fun i : Py.dict => i) "myhost-01" "Name"
    [[("Role", "db")]; [("Env", "prod")]]
  = if existsb (fun i => contains i "Name")
         [[("Role", "db")]; [("Env", "prod")]]
    then Raise (PatternError "Invalid pattern: myhost-01")
    else Ok ([], map (fun i => Item i None)
                   [[("Role", "db")]; [("Env", "prod")]]).
Proof.
  apply (classify_invalid_pattern (fun i : Py.dict => i) "myhost-01" "Name"
           (PatternError "Invalid pattern: myhost-01")).
  vm_compute; reflexivity.
Defined.

(* ================================================================== *)
(** * Names that outgrow the width, and the report of [main] *)

(** X16: for a pattern that parses, a name rendered as in [fresh_names]
    from an id that no longer fits in the width still matches the pattern
    built for tags, but the id read back from it is a smaller one: only
    its first digits, as many as the width, are read. *)
Theorem matched_id_make_name_overflow (pattern h a b : string) (cur i : Z) :
  parse_pattern pattern = Ok (descriptor h a b) ->
  10 ^ Z.of_nat (String.length a) <= cur + i ->
  exists k,
    matched_id pattern (make_name h a cur i) = Ok (Some k)
    /\ k = leading_id h (String.length a) (make_name h a cur i)
    /\ k < cur + i.
Proof.
  intros Hp Hk. pose proof (pow10_pos (String.length a)) as Hpos.
  assert (Hid : has_id h (String.length a) (make_name h a cur i)
                  (leading_id h (String.length a) (make_name h a cur i)))
    by (apply make_name_leading_id; lia).
  eexists. split; [apply (matched_id_shape _ _ _ _ Hp _ _ Hid)|].
  split; [reflexivity|]. pose proof (has_id_bound _ _ _ _ Hid). lia.
Qed.

Lemma matched_id_make_name_overflow_witness :
  exists k,
    matched_id "web[1:9]" (make_name "web" "1" 9 1) = Ok (Some k)
    /\ k = leading_id "web" (String.length "1") (make_name "web" "1" 9 1)
    /\ k < 9 + 1.
Proof.
  apply (matched_id_make_name_overflow "web[1:9]" "web" "1" "9" 9 1);
    [vm_compute; reflexivity | vm_compute; discriminate].
Defined.

Lemma format_return_map {Instance Attr : Type}
      (inst_id public_dns_name ip_address : Instance -> Attr)
      (instances : list (item Instance)) :
  format_return inst_id public_dns_name ip_address instances
  = map (fun it => Entry (inst_id (item_instance it))
                         (public_dns_name (item_instance it))
                         (ip_address (item_instance it)) (item_val it))
        instances.
Proof. unfold format_return. now rewrite fold_left_append_map. Qed.

(** X17: for a pattern that parses, what [format_return] makes of the
    valid list of the classification loop has one entry for each instance
    whose tag value [check_pattern] accepts, in the order of the
    instances, and the value of every entry is a tag value that
    [check_pattern] accepts. *)
Theorem format_return_valid {Instance Attr : Type}
        (tags : Instance -> Py.dict)
        (inst_id public_dns_name ip_address : Instance -> Attr)
        (pattern h a b tag : string) (instances : list Instance) :
  parse_pattern pattern = Ok (descriptor h a b) ->
  exists valid invalid,
    classify tags pattern tag instances = Ok (valid, invalid)
    /\ map entry_id (format_return inst_id public_dns_name ip_address valid)
       = map inst_id (filter (accepted tags pattern tag) instances)
    /\ forall e,
         In e (format_return inst_id public_dns_name ip_address valid) ->
         exists v, entry_value e = Some v
                   /\ check_pattern pattern v (@nil string) = Ok true.
Proof.
  intros Hp. eexists. eexists.
  split; [unfold classify;
          apply (classify_loop_valid tags pattern h a b tag instances Hp)|].
  cbn [app].
  rewrite format_return_map, !map_map. cbn [item_instance item_val].
  split; [reflexivity|].
  intros e He. apply in_map_iff in He as (i & <- & Hi).
  apply filter_In in Hi as [_ Hi]. cbn [entry_value].
  unfold accepted in Hi. unfold tag_value.
  destruct (Py.getitem (tags i) tag) as [v|]; [|discriminate].
  exists v. split; [reflexivity|].
  destruct (check_pattern pattern v []) as [r|]; [|discriminate].
  now rewrite Hi.
Qed.

Lemma format_return_valid_witness :
  exists valid invalid,
    classify (fun i : Py.dict => i) "host[01:05]" "Name"
      [[("Name", "host02")]; [("Role", "db")]; [("Name", "host04")]]
    = Ok (valid, invalid)
    /\ map entry_id
         (format_return (fun i : Py.dict => List.length i)
            (fun i => List.length i) (fun i => List.length i) valid)
       = map (fun i : Py.dict => List.length i)
           (filter (accepted (fun i => i) "host[01:05]" "Name")
              [[("Name", "host02")]; [("Role", "db")];
               [("Name", "host04")]])
    /\ forall e,
         In e (format_return (fun i : Py.dict => List.length i)
                 (fun i => List.length i) (fun i => List.length i) valid) ->
         exists v, entry_value e = Some v
                   /\ check_pattern "host[01:05]" v (@nil string) = Ok true.
Proof.
  apply (format_return_valid (fun i : Py.dict => i)
           (fun i : Py.dict => List.length i) (fun i => List.length i)
           (fun i => List.length i) "host[01:05]" "host" "01" "05" "Name").
  vm_compute; reflexivity.
Defined.
